(** * Virgil AI front end: project storage, status monitor and stop handling

    A shallow embedding of the browser-side code of the repository:
    - [hooks/useRobustStorage.ts]: the project list kept in React state and
      persisted to [localStorage];
    - [components/ProjectDetails.tsx], [components/StopGenerationButton.tsx]:
      when the stop control is offered;
    - [pages/index.tsx]: the status monitor (polling loops), stop, regenerate
      and the name-preserving update helper.

    JavaScript objects are finite maps from property names to values, the
    spread [{...a, ...b}] is a right-biased union.  Handlers run one at a
    time; a handler that continues after an [await] is given the [polling]
    set its callbacks captured when it was invoked. *)

From stdpp Require Import gmap strings list fin_maps pretty sorting.

#[local] Set Warnings "-register-all".
#[local] Open Scope Z_scope.

(** ** JavaScript values and JSON text *)

Module JS.

Inductive JValue :=
  | JUndef
  | JNull
  | JBool (b : bool)
  | JNum (n : Z)
  | JStr (s : string)
  | JArr (l : list JValue)
  | JObj (m : gmap string JValue).

(** A plain object: property name to value.  A missing key reads as
    [undefined]. *)
Abbreviation Obj := (gmap string JValue).

Definition prop (k : string) (o : Obj) : JValue := default JUndef (o !! k).

(** [{...a, ...b}] *)
Definition spread (a b : Obj) : Obj := b ∪ a.

(** ToBoolean *)
Definition truthy (v : JValue) : bool :=
  match v with
  | JUndef | JNull => false
  | JBool b => b
  | JNum n => negb (n =? 0)
  | JStr s => negb (String.eqb s EmptyString)
  | JArr _ | JObj _ => true
  end.

(** [a || b] *)
Definition or_else (a b : JValue) : JValue := if truthy a then a else b.

(** [a === b] on primitives; two distinct arrays or objects are never
    identical. *)
Definition strictEq (a b : JValue) : bool :=
  match a, b with
  | JUndef, JUndef | JNull, JNull => true
  | JBool x, JBool y => Bool.eqb x y
  | JNum x, JNum y => x =? y
  | JStr x, JStr y => String.eqb x y
  | _, _ => false
  end.

(** [arr.includes(s)] for a string [s] *)
Definition includes (l : list JValue) (s : string) : bool :=
  existsb (fun v => strictEq v (JStr s)) l.

(** *** JSON.stringify

    Strings are taken over ASCII, one character per UTF-16 code unit, and
    numbers are integers.  Properties are written in the map's own order;
    the length of the text does not depend on it. *)

Definition dquote : string := String (Ascii.ascii_of_N 34) EmptyString.
Definition backslash : string := String (Ascii.ascii_of_N 92) EmptyString.

Definition hexDigit (n : N) : Ascii.ascii :=
  Ascii.ascii_of_N (if (n <? 10)%N then 48 + n else 87 + n)%N.

Definition escapeChar (c : Ascii.ascii) : string :=
  let n := Ascii.N_of_ascii c in
  if (n =? 34)%N then backslash +:+ dquote
  else if (n =? 92)%N then backslash +:+ backslash
  else if (n =? 8)%N then backslash +:+ "b"
  else if (n =? 12)%N then backslash +:+ "f"
  else if (n =? 10)%N then backslash +:+ "n"
  else if (n =? 13)%N then backslash +:+ "r"
  else if (n =? 9)%N then backslash +:+ "t"
  else if (n <? 32)%N then
    backslash +:+ "u00" +:+
      String (hexDigit (n / 16)) (String (hexDigit (n mod 16)) EmptyString)
  else String c EmptyString.

Fixpoint escape (s : string) : string :=
  match s with
  | EmptyString => EmptyString
  | String c r => escapeChar c +:+ escape r
  end.

Definition quote (s : string) : string := dquote +:+ escape s +:+ dquote.

Definition joinComma (parts : list string) : string :=
  match parts with
  | [] => EmptyString
  | p :: ps => fold_left (fun acc q => acc +:+ "," +:+ q) ps p
  end.

(** [undefined] becomes [null] inside an array and makes a property
    disappear from an object. *)
Fixpoint stringify (v : JValue) : string :=
  match v with
  | JUndef | JNull => "null"
  | JBool true => "true"
  | JBool false => "false"
  | JNum n => pretty n
  | JStr s => quote s
  | JArr l => "[" +:+ joinComma (map stringify l) +:+ "]"
  | JObj m =>
      "{" +:+
      joinComma
        (map_fold
           (fun k x acc =>
              match x with
              | JUndef => acc
              | _ => (quote k +:+ ":" +:+ stringify x) :: acc
              end) [] m)
      +:+ "}"
  end.

(** [JSON.parse(JSON.stringify(v))], for [v] other than [undefined] itself *)
Fixpoint roundTrip (v : JValue) : JValue :=
  match v with
  | JUndef => JNull
  | JArr l => JArr (map roundTrip l)
  | JObj m =>
      JObj (omap (fun x => match x with
                               | JUndef => None
                               | _ => Some (roundTrip x)
                               end) m)
  | _ => v
  end.

(** [[...l].sort(compare)] for a comparator that is "not positive" exactly on
    [R]: an element is put in front of the first one it may precede, so
    elements that compare equal keep their order, as ECMAScript requires of
    [sort]. *)
Section StableSort.
Context {A : Type} (R : relation A) `{!RelDecision R}.

Fixpoint insertInOrder (x : A) (l : list A) : list A :=
  match l with
  | [] => [x]
  | y :: r => if decide (R x y) then x :: y :: r else y :: insertInOrder x r
  end.

Definition stableSort (l : list A) : list A := foldr insertInOrder [] l.

End StableSort.

(** What the code uses of [Date].  [date_time v] is
    [new Date(v).getTime()], [None] for [NaN].  [localTZA t isUTC] is the
    offset of local time in milliseconds (ECMAScript's LocalTZA): the one in
    force at the instant [t] when [isUTC], at the local time [t]
    otherwise. *)
Class DateImpl := {
  date_time : JValue -> option Z;
  localTZA : Z -> bool -> Z
}.

End JS.
Export JS.

(** ** Date: an implementation for the ISO date-time format

    [isoDate] reads the format written by [Date.prototype.toISOString]
    ([YYYY-MM-DDTHH:mm:ss.sssZ]), the only one the code itself writes, in a
    browser whose local time is UTC.  The operations below are stated for
    any [DateImpl]. *)

Module IsoDate.

Definition digit (c : Ascii.ascii) : option Z :=
  let n := Ascii.N_of_ascii c in
  if ((48 <=? n) && (n <=? 57))%N then Some (Z.of_N n - 48) else None.

Fixpoint number (cs : list Ascii.ascii) (acc : Z) : option Z :=
  match cs with
  | [] => Some acc
  | c :: r => d ← digit c; number r (10 * acc + d)
  end.

Definition isChar (code : N) (c : Ascii.ascii) : bool :=
  (Ascii.N_of_ascii c =? code)%N.

Definition leapYear (y : Z) : bool :=
  ((y mod 4 =? 0) && negb (y mod 100 =? 0)) || (y mod 400 =? 0).

Definition daysInMonth (y m : Z) : Z :=
  if m =? 2 then (if leapYear y then 29 else 28)
  else if (m =? 4) || (m =? 6) || (m =? 9) || (m =? 11) then 30
  else 31.

(** Days from 1970-01-01 to the civil date [y]-[m]-[d]. *)
Definition daysFromCivil (y m d : Z) : Z :=
  let y' := if m <=? 2 then y - 1 else y in
  let era := y' / 400 in
  let yoe := y' - era * 400 in
  let doy := (153 * (if 2 <? m then m - 3 else m + 9) + 2) / 5 + d - 1 in
  let doe := yoe * 365 + yoe / 4 - yoe / 100 + doy in
  era * 146097 + doe - 719468.

Definition parse (s : string) : option Z :=
  match String.list_ascii_of_string s with
  | [y1; y2; y3; y4; a; m1; m2; b; d1; d2; t; h1; h2; c; i1; i2; e; s1; s2;
     f; f1; f2; f3; z] =>
      if isChar 45 a && isChar 45 b && isChar 84 t && isChar 58 c && isChar 58 e
         && isChar 46 f
         && isChar 90 z
      then
        y ← number [y1; y2; y3; y4] 0;
        m ← number [m1; m2] 0;
        d ← number [d1; d2] 0;
        h ← number [h1; h2] 0;
        i ← number [i1; i2] 0;
        sec ← number [s1; s2] 0;
        ms ← number [f1; f2; f3] 0;
        if (1 <=? m) && (m <=? 12) && (1 <=? d) && (d <=? daysInMonth y m)
           && (h <=? 23) && (i <=? 59) && (sec <=? 59)
        then Some ((((daysFromCivil y m d * 24 + h) * 60 + i) * 60 + sec)
                   * 1000 + ms)
        else None
      else None
  | _ => None
  end.

Definition isoDate : DateImpl :=
  {| date_time v :=
       match v with
       | JStr s => parse s
       | JNum n => if Z.abs n <=? 8640000000000000 then Some n else None
       | JBool b => Some (if b then 1 else 0)
       | JNull => Some 0
       | _ => None
       end;
     localTZA _ _ := 0 |}.

End IsoDate.

(** ** localStorage

    Every writer in the code base stores [JSON.stringify] output and every
    reader applies [JSON.parse]; an item is therefore kept as the value its
    text denotes.  [quota] is the number of characters the origin may hold;
    a write that would exceed it raises [QuotaExceededError]. *)

Module LocalStorage.

Record t := { items : gmap string JValue; quota : Z }.

Inductive Error := QuotaExceededError.

Inductive Outcome (A : Type) :=
  | Ok (a : A)
  | Throw (e : Error).
Arguments Ok {A} a.
Arguments Throw {A} e.

Definition textLength (s : string) : Z := Z.of_nat (String.length s).

Definition usage (m : gmap string JValue) : Z :=
  map_fold (fun k v acc => textLength k + textLength (stringify v) + acc) 0 m.

(** [JSON.parse(localStorage.getItem(k))], [None] for [null] *)
Definition getItem (k : string) (ls : t) : option JValue := items ls !! k.

(** [localStorage.setItem(k, JSON.stringify(v))] *)
Definition setItem (k : string) (v : JValue) (ls : t) : Outcome t :=
  let items' := <[k := roundTrip v]> (items ls) in
  if usage items' <=? quota ls
  then Ok {| items := items'; quota := quota ls |}
  else Throw QuotaExceededError.

(** The write of [v] under [k] stays within the quota. *)
Definition fits (k : string) (v : JValue) (ls : t) : Prop :=
  usage (<[k := roundTrip v]> (items ls)) <= quota ls.

Definition written (k : string) (v : JValue) (ls : t) : t :=
  {| items := <[k := roundTrip v]> (items ls); quota := quota ls |}.

(** [localStorage.removeItem(k)] *)
Definition removeItem (k : string) (ls : t) : t :=
  {| items := delete k (items ls); quota := quota ls |}.

(** [localStorage.setItem(k, text); localStorage.removeItem(k)] for a plain
    text: the write is refused when it does not fit, and nothing of it is
    left otherwise. *)
Definition probe (k text : string) (ls : t) : Outcome t :=
  if usage (delete k (items ls)) + textLength k + textLength text <=? quota ls
  then Ok (removeItem k ls)
  else Throw QuotaExceededError.

End LocalStorage.
Export LocalStorage (Ok, Throw, QuotaExceededError).

(** ** hooks/useRobustStorage.ts

    The hook's state is the React state [projects], the flag
    [isStorageAvailable] and the browser's [localStorage].  The [metrics]
    record (counters and an error log) is only displayed, no operation
    reads it back, and it is left out. *)

Module RobustStorage.

Definition STORAGE_KEY : string := "ai_code_generator_projects".
Definition MAX_PROJECTS : nat := 200.
Definition MAX_STORAGE_SIZE : Z := 8 * 1024 * 1024.
Definition ACTIVE_PROJECTS_KEY : string := "ai_code_generator_active_projects".

Abbreviation Project := Obj.

Record State := {
  projects : list Project;
  isStorageAvailable : bool;
  localStorage : LocalStorage.t
}.

Definition setProjects (l : list Project) (st : State) : State :=
  {| projects := l;
     isStorageAvailable := isStorageAvailable st;
     localStorage := localStorage st |}.

Definition setLocalStorage (ls : LocalStorage.t) (st : State) : State :=
  {| projects := projects st;
     isStorageAvailable := isStorageAvailable st;
     localStorage := ls |}.

Definition projectsJson (l : list Project) : JValue := JArr (JObj <$> l).

(** [p.project_id === id] *)
Definition hasId (id : JValue) (p : Project) : bool :=
  strictEq (prop "project_id" p) id.

(** [{ ...p, ...updates, updated_at: new Date().toISOString() }] *)
Definition mergeUpdate (updates : Obj) (now : string) (p : Project) : Project :=
  <["updated_at" := JStr now]> (spread p updates).

Definition getProject (st : State) (projectId : string) : option Project :=
  List.find (hasId (JStr projectId)) (projects st).

Record CleanupResult := { removed : Z; remaining : Z }.

Record ImportResult := { success : bool; count : option nat }.

Section WithDate.
Context `{DateImpl}.

Definition createdAt (p : Project) : option Z :=
  date_time (prop "created_at" p).

(** The comparator handed to [sort]:
    [new Date(b.created_at).getTime() - new Date(a.created_at).getTime()],
    [None] for [NaN]. *)
Definition compareCreated (a b : Project) : option Z :=
  tb ← createdAt b; ta ← createdAt a; Some (tb - ta).

(** [a] may stay in front of [b]: the comparator is not positive (a
    [NaN] counts as [+0]). *)
Definition newerFirst (a b : Project) : Prop :=
  match compareCreated a b with
  | Some d => d <= 0
  | None => True
  end.

#[export] Instance newerFirst_dec : RelDecision newerFirst.
Proof.
  intros a b. unfold newerFirst.
  destruct (compareCreated a b); [apply Z.le_dec | left; exact I].
Defined.

(** [[...l].sort(comparator)].  Where a date does not parse the comparator
    is inconsistent and the order an engine produces is
    implementation-defined; the model then gives the order of the stable
    insertion above. *)
Definition sortNewestFirst (l : list Project) : list Project :=
  stableSort newerFirst l.

Definition saveProjects (st : State) (newProjects : list Project)
  : State * bool :=
  if negb (isStorageAvailable st) then (st, false)
  else
    let sortedProjects := sortNewestFirst newProjects in
    let limitedProjects := take MAX_PROJECTS sortedProjects in
    let dataString := stringify (projectsJson limitedProjects) in
    let kept :=
      if MAX_STORAGE_SIZE / 2 <? LocalStorage.textLength dataString
      then take (MAX_PROJECTS / 2)%nat limitedProjects
      else limitedProjects in
    match LocalStorage.setItem STORAGE_KEY (projectsJson kept)
            (localStorage st) with
    | Ok ls => (setProjects kept (setLocalStorage ls st), true)
    | Throw QuotaExceededError =>
        (* emergency cleanup *)
        let emergencyProjects := take 50 newProjects in
        match LocalStorage.setItem STORAGE_KEY
                (projectsJson emergencyProjects) (localStorage st) with
        | Ok ls =>
            (setProjects emergencyProjects (setLocalStorage ls st), true)
        | Throw _ => (st, false)
        end
    end.

Definition trackActiveProject (st : State) (projectId : string)
  : State * bool :=
  if negb (isStorageAvailable st) then (st, false)
  else
    let activeProjects :=
      default (JArr []) (LocalStorage.getItem ACTIVE_PROJECTS_KEY
                           (localStorage st)) in
    match activeProjects with
    | JArr l =>
        if includes l projectId then (st, true)
        else
          match LocalStorage.setItem ACTIVE_PROJECTS_KEY
                  (JArr (l ++ [JStr projectId])) (localStorage st) with
          | Ok ls => (setLocalStorage ls st, true)
          | Throw _ => (st, false)
          end
    | JStr s =>
        (* a string has [includes] but no [push] *)
        match String.index 0 projectId s with
        | Some _ => (st, true)
        | None => (st, false)
        end
    | _ => (st, false)
    end.

Definition untrackActiveProject (st : State) (projectId : string)
  : State * bool :=
  if negb (isStorageAvailable st) then (st, false)
  else
    match LocalStorage.getItem ACTIVE_PROJECTS_KEY (localStorage st) with
    | None => (st, true)
    | Some (JArr l) =>
        let updatedActiveProjects :=
          List.filter (fun id => negb (strictEq id (JStr projectId))) l in
        match LocalStorage.setItem ACTIVE_PROJECTS_KEY
                (JArr updatedActiveProjects) (localStorage st) with
        | Ok ls => (setLocalStorage ls st, true)
        | Throw _ => (st, false)
        end
    | Some _ => (st, false)
    end.

Definition getActiveProjects (st : State) : JValue :=
  if negb (isStorageAvailable st) then JArr []
  else
    default (JArr [])
      (LocalStorage.getItem "active_projects" (localStorage st)).

(** [projects.map(p => p.project_id === id ? {...} : p)] *)
Definition updatedProjects (st : State) (id : JValue) (updates : Obj)
    (now : string) : list Project :=
  map (fun p => if hasId id p then mergeUpdate updates now p else p)
    (projects st).

Definition updateProjectById (st : State) (id : JValue) (updates : Obj)
    (now : string) : State :=
  (saveProjects st (updatedProjects st id updates now)).1.

Definition updateProject (st : State) (projectId : string) (updates : Obj)
    (now : string) : State :=
  updateProjectById st (JStr projectId) updates now.

Definition removeProject (st : State) (projectId : string) : State :=
  let updatedProjects :=
    List.filter (fun p => negb (hasId (JStr projectId) p)) (projects st) in
  (saveProjects st updatedProjects).1.

(** [cutoffDate.setDate(cutoffDate.getDate() - 30)] on the [new Date()]
    of the instant [now]: the local time is moved thirty days back on the
    calendar, keeping the time of day, and read back as an instant with the
    offset in force there. *)
Definition cutoffDate (now : Z) : Z :=
  let local := now + localTZA now true in
  let newDate := local - 30 * 86400000 in
  newDate - localTZA newDate false.

Definition isRecent (now : Z) (p : Project) : bool :=
  match createdAt p with
  | Some t => cutoffDate now <? t
  | None => false
  end.

(** [projects.filter(p => new Date(p.created_at) > cutoffDate).slice(0, 100)] *)
Definition recentProjects (st : State) (now : Z) : list Project :=
  take 100 (List.filter (isRecent now) (projects st)).

Definition forceCleanup (st : State) (now : Z) : State * CleanupResult :=
  ((saveProjects st (recentProjects st now)).1,
   {| removed := Z.of_nat (length (projects st))
                 - Z.of_nat (length (recentProjects st now));
      remaining := Z.of_nat (length (recentProjects st now)) |}).

(** The result is [None] where the source returns [undefined] (the
    value of [updateProject]). *)
Definition addProject (st : State) (project : Project) (now : string)
  : State * option bool :=
  if negb (truthy (prop "project_id" project))
     || negb (truthy (prop "project_name" project))
     || negb (truthy (prop "created_at" project))
  then (st, Some false)
  else
    let id := prop "project_id" project in
    match List.find (hasId id) (projects st) with
    | Some _ => (updateProjectById st id project now, None)
    | None =>
        let normalizedProject : Project :=
          <["updated_at" := or_else (prop "updated_at" project) (JStr now)]>
            (<["created_at" := prop "created_at" project]>
               (<["status" := or_else (prop "status" project)
                                (JStr "created")]> project)) in
        let updatedProjects := normalizedProject :: projects st in
        let (st1, saveResult) := saveProjects st updatedProjects in
        if saveResult then
          match LocalStorage.getItem STORAGE_KEY (localStorage st1) with
          | Some (JArr parsed) =>
              if existsb (fun v => match v with
                                   | JObj p => hasId id p
                                   | _ => false
                                   end) parsed
              then (st1, Some true)
              else
                (* forces a second write of the whole list *)
                match LocalStorage.setItem STORAGE_KEY
                        (projectsJson updatedProjects)
                        (localStorage st1) with
                | Ok ls => (setLocalStorage ls st1, Some true)
                | Throw _ => (st1, Some true)
                end
          | _ => (st1, Some true)
          end
        else (st1, Some false)
    end.

(** [imported] is the [projects] array of the parsed file, [None] when
    the file has no such array. *)
Definition importProjects (st : State) (imported : option (list Project))
  : State * ImportResult :=
  match imported with
  | None => (st, {| success := false; count := None |})
  | Some l =>
      let newProjects :=
        List.filter
          (fun p => negb (existsb (hasId (prop "project_id" p))
                            (projects st))) l in
      let mergedProjects := projects st ++ newProjects in
      let (st1, ok) := saveProjects st mergedProjects in
      (st1, {| success := ok;
               count := Some (if ok then length newProjects else 0%nat) |})
  end.

(** The list [saveProjects] writes when its first write is accepted. *)
Definition keptProjects (newProjects : list Project) : list Project :=
  let limitedProjects := take MAX_PROJECTS (sortNewestFirst newProjects) in
  if MAX_STORAGE_SIZE / 2
     <? LocalStorage.textLength (stringify (projectsJson limitedProjects))
  then take (MAX_PROJECTS / 2)%nat limitedProjects
  else limitedProjects.

(** Storage is available and accepts the first write of [saveProjects]. *)
Definition savesNormally (st : State) (newProjects : list Project) : Prop :=
  isStorageAvailable st = true
  /\ LocalStorage.fits STORAGE_KEY (projectsJson (keptProjects newProjects))
       (localStorage st).

(** The state after an accepted first write, and after an accepted
    emergency write. *)
Definition savedNormally (st : State) (l : list Project) : State :=
  setProjects (keptProjects l)
    (setLocalStorage
       (LocalStorage.written STORAGE_KEY (projectsJson (keptProjects l))
          (localStorage st)) st).

Definition savedInEmergency (st : State) (l : list Project) : State :=
  setProjects (take 50 l)
    (setLocalStorage
       (LocalStorage.written STORAGE_KEY (projectsJson (take 50 l))
          (localStorage st)) st).

(** The list under [STORAGE_KEY], as [JSON.parse] returns it. *)
Definition persisted (st : State) : option JValue :=
  LocalStorage.getItem STORAGE_KEY (localStorage st).

(** Creation times never increase along the list. *)
Definition newestFirst (l : list Project) : Prop :=
  StronglySorted
    (fun a b => match createdAt a, createdAt b with
                | Some ta, Some tb => tb <= ta
                | _, _ => False
                end) l.

(** [projects.filter(p => p.project_id !== projectId)] *)
Definition withoutProject (st : State) (projectId : string) : list Project :=
  List.filter (fun p => negb (hasId (JStr projectId) p)) (projects st).

(** The project [addProject] puts in front of the list. *)
Definition normalizedProject (project : Project) (now : string) : Project :=
  <["updated_at" := or_else (prop "updated_at" project) (JStr now)]>
    (<["created_at" := prop "created_at" project]>
       (<["status" := or_else (prop "status" project) (JStr "created")]>
          project)).

End WithDate.

(** [project.project_id && project.project_name && project.created_at] *)
Definition hasRequiredFields (p : Project) : bool :=
  truthy (prop "project_id" p) && truthy (prop "project_name" p)
  && truthy (prop "created_at" p).

(** The test of [loadProjects] on an entry of the stored array: an object
    with the three required fields. *)
Definition validProject (v : JValue) : option Project :=
  match v with
  | JObj p => if hasRequiredFields p then Some p else None
  | _ => None
  end.

(** [checkStorageAvailability]: a test entry is written and removed. *)
Definition checkStorageAvailability (st : State) : State * bool :=
  match LocalStorage.probe "__storage_test__" "__storage_test__"
          (localStorage st) with
  | Ok ls =>
      ({| projects := projects st; isStorageAvailable := true;
          localStorage := ls |}, true)
  | Throw _ =>
      ({| projects := projects st; isStorageAvailable := false;
          localStorage := localStorage st |}, false)
  end.

(** [loadProjects]: a stored value that is not an array is removed. *)
Definition loadProjects (st : State) : State :=
  let (st1, available) := checkStorageAvailability st in
  if negb available then setProjects [] st1
  else
    match LocalStorage.getItem STORAGE_KEY (localStorage st1) with
    | None => setProjects [] st1
    | Some (JArr parsed) => setProjects (omap validProject parsed) st1
    | Some _ =>
        setProjects []
          (setLocalStorage
             (LocalStorage.removeItem STORAGE_KEY (localStorage st1)) st1)
    end.

Definition clearAllProjects (st : State) : State * bool :=
  (setProjects []
     (setLocalStorage (LocalStorage.removeItem STORAGE_KEY (localStorage st))
        st),
   true).

(** The object written by [exportProjects]. *)
Definition exportData (st : State) (exportDate : string) : JValue :=
  JObj {[ "projects" := projectsJson (projects st);
          "exportDate" := JStr exportDate;
          "version" := JStr "1.0" ]}.

(** An object as [JSON.parse] reads it back from its text. *)
Definition roundTripObj (p : Obj) : Obj :=
  omap (fun x => match x with
                 | JUndef => None
                 | _ => Some (roundTrip x)
                 end) p.

(** The [projects] array of the file written by [exportProjects], as the
    import reads it. *)
Definition exportedProjects (st : State) : list Project :=
  roundTripObj <$> projects st.

(** The update carries no [project_id], or the one of the project it is
    applied to. *)
Definition keepsId (projectId : string) (updates : Obj) : Prop :=
  match updates !! "project_id" with
  | None => True
  | Some v => v = JStr projectId
  end.

(** The list in [projects] is the stored one: storage is available, within
    its quota, and holds the list under the key. *)
Definition holdsList (st : State) : Prop :=
  isStorageAvailable st = true
  /\ LocalStorage.usage (LocalStorage.items (localStorage st))
     <= LocalStorage.quota (localStorage st)
  /\ LocalStorage.getItem STORAGE_KEY (localStorage st)
     = Some (roundTrip (projectsJson (projects st))).

End RobustStorage.

(** ** The backend, seen from the browser

    The HTTP API is an external collaborator: the outcome of each call is an
    input of the handler that awaits it. *)

Module Api.

Record JsError := { name : string; message : string }.

Inductive Result (A : Type) :=
  | Resolved (a : A)
  | Rejected (e : JsError).
Arguments Resolved {A} a.
Arguments Rejected {A} e.

(** [error.name === 'NetworkError' || error.message.includes('fetch')] *)
Definition connectionProblem (e : JsError) : bool :=
  String.eqb (name e) "NetworkError"
  || bool_decide (is_Some (String.index 0 "fetch" (message e))).

End Api.
Export Api (Resolved, Rejected).

(** ** components/ProjectDetails.tsx *)

Module ProjectDetails.
Import RobustStorage.

Definition isGenerating (project : Project) : bool :=
  existsb (strictEq (prop "status" project))
    [JStr "processing"; JStr "generating_code"; JStr "generating_tests";
     JStr "running_tests"].

Definition canModify (project : Project) : bool :=
  negb (isGenerating project)
  && negb (strictEq (prop "status" project) (JStr "uploaded")).

(** [{isGenerating() && onStopGeneration && (<StopGenerationButton .../>)}]:
    the guard of every stop control of the panel; [onStopGeneration] tells
    whether the parent passed a handler. *)
Definition stopControlRendered (onStopGeneration : bool) (project : Project)
  : bool :=
  isGenerating project && onStopGeneration.

Definition getStatusColor (status : JValue) : string :=
  if strictEq status (JStr "completed") then "success"
  else if strictEq status (JStr "processing")
          || strictEq status (JStr "generating_code")
          || strictEq status (JStr "generating_tests")
          || strictEq status (JStr "running_tests") then "warning"
  else if strictEq status (JStr "failed") || strictEq status (JStr "error")
  then "error"
  else "default".

(** [(project.status === 'failed' || project.status === 'error') && ...]:
    the retry button of the header. *)
Definition retryOffered (project : Project) : bool :=
  strictEq (prop "status" project) (JStr "failed")
  || strictEq (prop "status" project) (JStr "error").

(** [project.status === 'completed' && ...]: the download buttons. *)
Definition downloadOffered (project : Project) : bool :=
  strictEq (prop "status" project) (JStr "completed").

(** [canModify() && onModify && ...]: the modify button. *)
Definition modifyOffered (onModify : bool) (project : Project) : bool :=
  canModify project && onModify.

End ProjectDetails.

(** ** components/StopGenerationButton.tsx *)

Module StopGenerationButton.

Record State := {
  checkingStatus : bool;
  can_stop : bool;
  stopping : bool
}.

Definition initial : State :=
  {| checkingStatus := true; can_stop := true; stopping := false |}.

(** [checkCanStop]: [response] is the outcome of [api.canStopGeneration]. *)
Definition checkCanStop (disabled : bool) (response : Api.Result Obj)
    (st : State) : State :=
  if disabled then
    {| checkingStatus := false; can_stop := can_stop st;
       stopping := stopping st |}
  else
    match response with
    | Resolved result =>
        {| checkingStatus := false;
           can_stop := truthy (prop "can_stop" result);
           stopping := stopping st |}
    | Rejected _ =>
        (* fallback: assume the generation can be stopped *)
        {| checkingStatus := false; can_stop := true;
           stopping := stopping st |}
    end.

(** The button can be clicked. *)
Definition clickable (disabled : bool) (st : State) : bool :=
  negb (checkingStatus st) && can_stop st
  && negb (disabled || stopping st).

(** [handleConfirmStop]: [true] when [onStopSuccess] is called. *)
Definition handleConfirmStop (response : Api.Result JValue) : bool :=
  match response with
  | Resolved result =>
      truthy result
      && negb (match result with
               | JObj r => strictEq (prop "success" r) (JBool false)
               | _ => false
               end)
  | Rejected _ => false
  end.

End StopGenerationButton.

(** ** pages/index.tsx

    The page state: the storage hook, the [polling] and [activeProjects]
    sets, the selected project, and the polling loops that are alive (a
    [poll] closure waiting for its response or for its 5 s timer).  Only the
    kind of the message shown to the user is kept, not its wording.

    A [poll] closure reads and rewrites the project list of the render that
    started its loop; here it works on the current list.  What is stated
    about [poll] below (whether the next run is scheduled, what happens to
    [polling] and to the live loops) holds whichever list it sees. *)

Module HomePage.
Import RobustStorage.

Inductive Loop :=
  | Plain (projectId : string)
  | NamePreserving (projectId : string) (customNames : JValue).

Definition loopProject (l : Loop) : string :=
  match l with
  | Plain projectId => projectId
  | NamePreserving projectId _ => projectId
  end.

Inductive Notice :=
  | GenerationStopped
  | StopError
  | ProjectCompleted
  | ProjectFailed
  | ConnectionProblem
  | RegenerationStarted
  | RegenerationError
  | ModificationStarted
  | ProjectRemoved
  | CleanupDone (result : CleanupResult).

Record State := {
  store : RobustStorage.State;
  polling : gset string;
  activeProjects : gset string;
  selectedProject : option Project;
  loops : list Loop;
  notice : option Notice
}.

Definition withStore (s : RobustStorage.State) (st : State) : State :=
  {| store := s; polling := polling st;
     activeProjects := activeProjects st;
     selectedProject := selectedProject st; loops := loops st;
     notice := notice st |}.

Definition setPolling (ps : gset string) (st : State) : State :=
  {| store := store st; polling := ps;
     activeProjects := activeProjects st;
     selectedProject := selectedProject st; loops := loops st;
     notice := notice st |}.

Definition setActiveProjects (a : gset string) (st : State) : State :=
  {| store := store st; polling := polling st; activeProjects := a;
     selectedProject := selectedProject st; loops := loops st;
     notice := notice st |}.

Definition setSelectedProject (p : option Project) (st : State) : State :=
  {| store := store st; polling := polling st;
     activeProjects := activeProjects st; selectedProject := p;
     loops := loops st; notice := notice st |}.

Definition setLoops (ls : list Loop) (st : State) : State :=
  {| store := store st; polling := polling st;
     activeProjects := activeProjects st;
     selectedProject := selectedProject st; loops := ls;
     notice := notice st |}.

Definition setNotice (n : option Notice) (st : State) : State :=
  {| store := store st; polling := polling st;
     activeProjects := activeProjects st;
     selectedProject := selectedProject st; loops := loops st;
     notice := n |}.

Definition trackActiveProject (projectId : string) (st : State) : State :=
  setActiveProjects ({[projectId]} ∪ activeProjects st) st.

Definition untrackActiveProject (projectId : string) (st : State) : State :=
  setActiveProjects (activeProjects st ∖ {[projectId]}) st.

(** [`Progetto ${projectId.substring(0, 8)}`] *)
Definition defaultName (projectId : string) : string :=
  "Progetto " +:+ String.substring 0 8 projectId.

(** [status.project_name && !status.project_name.includes(defaultName)];
    [None] is the [TypeError] of a value without [includes]. *)
Definition usesReportedName (reported : JValue) (projectId : string)
  : option bool :=
  if negb (truthy reported) then Some false
  else
    match reported with
    | JStr s =>
        Some (negb (bool_decide
                      (is_Some (String.index 0 (defaultName projectId) s))))
    | JArr l => Some (negb (includes l (defaultName projectId)))
    | _ => None
    end.

(** [customNames[projectId]]; [None] is the [TypeError] on [null].  Index
    keys of strings and arrays are not modelled. *)
Definition member (v : JValue) (k : string) : option JValue :=
  match v with
  | JObj m => Some (prop k m)
  | JNull | JUndef => None
  | _ => Some JUndef
  end.

Definition typeError : Api.JsError :=
  {| Api.name := "TypeError"; Api.message := "not a function" |}.

(** [status.status === 'completed' || ... 'failed' || ... 'error'] *)
Definition isTerminal (status : Obj) : bool :=
  strictEq (prop "status" status) (JStr "completed")
  || strictEq (prop "status" status) (JStr "failed")
  || strictEq (prop "status" status) (JStr "error").

(** What both the terminal branch and the [catch] branch of [poll] do. *)
Definition stopMonitoring (projectId : string) (st : State) : State :=
  untrackActiveProject projectId
    (setPolling (polling st ∖ {[projectId]}) st).

Definition pollCatch (projectId : string) (e : Api.JsError) (st : State)
  : State :=
  let st1 := stopMonitoring projectId st in
  if Api.connectionProblem e then setNotice (Some ConnectionProblem) st1
  else st1.

(** The tail of [poll]: [true] when [setTimeout(poll, 5000)] is reached. *)
Definition pollTail (projectId : string) (status : Obj) (st : State)
  : State * bool :=
  if isTerminal status then
    (setNotice
       (Some (if strictEq (prop "status" status) (JStr "completed")
              then ProjectCompleted else ProjectFailed))
       (stopMonitoring projectId st),
     false)
  else (st, true).

Section WithDate.
Context `{DateImpl}.

(** [{ ...newData, project_name: existingProject.project_name }] *)
Definition safeUpdate (existingProject : Project) (newData : Obj) : Obj :=
  <["project_name" := prop "project_name" existingProject]> newData.

Definition updateProjectSafely (st : State) (projectId : string)
    (newData : Obj) (now : string) : State :=
  match getProject (store st) projectId with
  | Some existingProject =>
      withStore
        (updateProject (store st) projectId
           (safeUpdate existingProject newData) now) st
  | None =>
      withStore (updateProject (store st) projectId newData now) st
  end.

(** [{ status: 'failed', stopped_by_user: true, stopped_at: now }] *)
Definition stoppedFields (now : string) : Obj :=
  {[ "status" := JStr "failed";
     "stopped_by_user" := JBool true;
     "stopped_at" := JStr now ]}.

(** [{ status: 'processing', current_iteration: 0, test_results: undefined }] *)
Definition regeneratedFields : Obj :=
  {[ "status" := JStr "processing";
     "current_iteration" := JNum 0;
     "test_results" := JUndef ]}.

Definition handleStopGeneration (st : State) (projectId : string)
    (response : Api.Result JValue) (now : string) : State :=
  match response with
  | Resolved _ =>
      let st1 := updateProjectSafely st projectId (stoppedFields now) now in
      let st2 := setPolling (polling st1 ∖ {[projectId]}) st1 in
      setNotice (Some GenerationStopped) (untrackActiveProject projectId st2)
  | Rejected _ => setNotice (Some StopError) st
  end.

(** One run of the [poll] closure of [pollProjectStatus]; the Boolean
    tells whether the next run was scheduled. *)
Definition poll (st : State) (projectId : string)
    (response : Api.Result Obj) (now : string) : State * bool :=
  match response with
  | Rejected e => (pollCatch projectId e st, false)
  | Resolved status =>
      match getProject (store st) projectId with
      | Some existingProject =>
          match usesReportedName (prop "project_name" status) projectId with
          | None => (pollCatch projectId typeError st, false)
          | Some reported =>
              let updatedStatus :=
                <["project_name" :=
                    if reported then prop "project_name" status
                    else prop "project_name" existingProject]> status in
              pollTail projectId status
                (withStore
                   (updateProject (store st) projectId updatedStatus now)
                   st)
          end
      | None =>
          let newProject : Project :=
            {[ "project_id" := JStr projectId;
               "project_name" :=
                 or_else (prop "project_name" status)
                   (JStr (defaultName projectId));
               "status" := prop "status" status;
               "created_at" := JStr now;
               "current_iteration" := prop "current_iteration" status ]} in
          let st1 := withStore (addProject (store st) newProject now).1 st in
          let st2 :=
            match selectedProject st1 with
            | None => setSelectedProject (Some newProject) st1
            | Some _ => st1
            end in
          pollTail projectId status st2
      end
  end.

(** One run of the [poll] closure of
    [pollProjectStatusWithNamePreservation]. *)
Definition pollNamed (st : State) (projectId : string)
    (customNames : JValue) (response : Api.Result Obj) (now : string)
  : State * bool :=
  match response with
  | Rejected e => (pollCatch projectId e st, false)
  | Resolved status =>
      let existingProject := getProject (store st) projectId in
      match member customNames projectId with
      | None => (pollCatch projectId typeError st, false)
      | Some custom =>
          let nameToUse :=
            or_else
              (or_else custom
                 (match existingProject with
                  | Some e => prop "project_name" e
                  | None => JNull
                  end))
              (prop "project_name" status) in
          match existingProject with
          | Some _ =>
              let safeUpdate := <["project_name" := nameToUse]> status in
              pollTail projectId status
                (withStore
                   (updateProject (store st) projectId safeUpdate now) st)
          | None =>
              let newProject : Project :=
                {[ "project_id" := JStr projectId;
                   "project_name" := nameToUse;
                   "status" := prop "status" status;
                   "created_at" := JStr now;
                   "current_iteration" :=
                     prop "current_iteration" status ]} in
              let st1 :=
                withStore (addProject (store st) newProject now).1 st in
              let st2 :=
                match selectedProject st1 with
                | None => setSelectedProject (Some newProject) st1
                | Some _ => st1
                end in
              pollTail projectId status st2
          end
      end
  end.

(** [pollProjectStatus] as the callback of a render whose [polling] set
    was [seen] ([useCallback] over [polling]): the guard [polling.has]
    reads [seen]; the functional updates of the two sets and the new loop
    apply to the state there is. *)
Definition pollProjectStatusFrom (seen : gset string) (st : State)
    (projectId : string) : State :=
  if bool_decide (projectId ∈ seen) then st
  else
    let st1 := trackActiveProject projectId st in
    let st2 := setPolling ({[projectId]} ∪ polling st1) st1 in
    setLoops (loops st2 ++ [Plain projectId]) st2.

(** [pollProjectStatus] called in the render that is current. *)
Definition pollProjectStatus (st : State) (projectId : string) : State :=
  pollProjectStatusFrom (polling st) st projectId.

Definition pollProjectStatusWithNamePreservationFrom (seen : gset string)
    (st : State) (projectId : string) : State :=
  if bool_decide (projectId ∈ seen) then st
  else
    let st1 := trackActiveProject projectId st in
    let st2 := setPolling ({[projectId]} ∪ polling st1) st1 in
    let customNames :=
      default (JObj ∅)
        (LocalStorage.getItem "virgil_custom_project_names"
           (localStorage (store st2))) in
    setLoops (loops st2 ++ [NamePreserving projectId customNames]) st2.

Definition pollProjectStatusWithNamePreservation (st : State)
    (projectId : string) : State :=
  pollProjectStatusWithNamePreservationFrom (polling st) st projectId.

(** The [i]-th live loop receives its response: the loop stays when it
    schedules its next run and disappears otherwise. *)
Definition pollFires (st : State) (i : nat) (response : Api.Result Obj)
    (now : string) : State :=
  match loops st !! i with
  | None => st
  | Some l =>
      let (st1, again) :=
        match l with
        | Plain projectId => poll st projectId response now
        | NamePreserving projectId customNames =>
            pollNamed st projectId customNames response now
        end in
      if again then st1 else setLoops (delete i (loops st1)) st1
  end.

(** [handleRegenerateProject], run when [api.generateProject] settles.
    The [pollProjectStatus] it then calls is the callback of the render in
    which the button was clicked, whose [polling] set was [seen]. *)
Definition handleRegenerateProject (seen : gset string) (st : State)
    (projectId : string) (response : Api.Result JValue) (now : string)
  : State :=
  let st0 := setNotice None st in
  match response with
  | Resolved _ =>
      let st1 := updateProjectSafely st0 projectId regeneratedFields now in
      setNotice (Some RegenerationStarted)
        (pollProjectStatusFrom seen st1 projectId)
  | Rejected _ => setNotice (Some RegenerationError) st0
  end.

Definition handleModifyProject (st : State) (projectId : string)
    (modification_id mode : JValue) (now : string) : State :=
  let st1 :=
    withStore
      (updateProject (store st) projectId
         {[ "status" := JStr "processing";
            "modification_id" := modification_id;
            "current_iteration" := JNum 0;
            "modification_mode" := mode ]} now) st in
  setNotice (Some ModificationStarted) (pollProjectStatus st1 projectId).

Definition handleDeleteProject (st : State) (projectId : string) : State :=
  let st1 := withStore (removeProject (store st) projectId) st in
  let st2 :=
    match selectedProject st1 with
    | Some p =>
        if hasId (JStr projectId) p then setSelectedProject None st1
        else st1
    | None => st1
    end in
  setNotice (Some ProjectRemoved) (untrackActiveProject projectId st2).

Definition handleForceCleanup (st : State) (now : Z) : State :=
  let (s, result) := forceCleanup (store st) now in
  setNotice (Some (CleanupDone result)) (withStore s st).

(** What can happen to the page: a handler is invoked or a live loop
    gets its response.  A [Regenerate] is a request that is answered before
    anything else happens on the page (its controls are disabled while it
    is pending), so that the [polling] set its guard reads is the one there
    is; replies that come later are the [Occurrence]s below. *)
Inductive Event :=
  | StartPolling (projectId : string)
  | StartPollingNamed (projectId : string)
  | PollFires (i : nat) (response : Api.Result Obj) (now : string)
  | StopGeneration (projectId : string) (response : Api.Result JValue)
      (now : string)
  | Regenerate (projectId : string) (response : Api.Result JValue)
      (now : string)
  | Modify (projectId : string) (modification_id mode : JValue)
      (now : string)
  | Delete (projectId : string)
  | ForceCleanup (now : Z).

Definition step (st : State) (e : Event) : State :=
  match e with
  | StartPolling projectId => pollProjectStatus st projectId
  | StartPollingNamed projectId =>
      pollProjectStatusWithNamePreservation st projectId
  | PollFires i response now => pollFires st i response now
  | StopGeneration projectId response now =>
      handleStopGeneration st projectId response now
  | Regenerate projectId response now =>
      handleRegenerateProject (polling st) st projectId response now
  | Modify projectId modification_id mode now =>
      handleModifyProject st projectId modification_id mode now
  | Delete projectId => handleDeleteProject st projectId
  | ForceCleanup now => handleForceCleanup st now
  end.

Definition run (st : State) (es : list Event) : State :=
  fold_left step es st.

(** A stop request that the backend accepted. *)
Definition acceptedStop (e : Event) : Prop :=
  match e with
  | StopGeneration _ (Resolved _) _ => True
  | _ => False
  end.

(** An event, or the late end of a request: [createProjectFromFile] and
    [handleRegenerateProject] start the monitor after an [await], through
    the callback of the render in which they were invoked, whose [polling]
    set was [seen], whatever has happened to the page since.
    [HookChanged] is any other change of the project list and of storage
    (a creation, an import), and also stands for the list that the closure
    of an earlier render still holds. *)
Inductive Occurrence :=
  | InRender (e : Event)
  | LateStartNamed (seen : gset string) (projectId : string)
  | LateRegenerate (seen : gset string) (projectId : string)
      (response : Api.Result JValue) (now : string)
  | HookChanged (s : RobustStorage.State).

Definition occur (st : State) (o : Occurrence) : State :=
  match o with
  | InRender e => step st e
  | LateStartNamed seen projectId =>
      pollProjectStatusWithNamePreservationFrom seen st projectId
  | LateRegenerate seen projectId response now =>
      handleRegenerateProject seen st projectId response now
  | HookChanged s => withStore s st
  end.

Definition runAll (st : State) (os : list Occurrence) : State :=
  fold_left occur os st.

End WithDate.

(** Live loops of one project. *)
Definition loopsOf (projectId : string) (st : State) : list Loop :=
  List.filter (fun l => String.eqb (loopProject l) projectId) (loops st).

Definition initial (s : RobustStorage.State) : State :=
  {| store := s; polling := ∅; activeProjects := ∅;
     selectedProject := None; loops := []; notice := None |}.

(** The response names the project by a string, or not at all. *)
Definition nameIsText (status : Obj) : Prop :=
  match prop "project_name" status with
  | JUndef | JNull | JStr _ => True
  | _ => False
  end.

(** Every project in [polling] has a live loop. *)
Definition polledHaveLoops (st : State) : Prop :=
  forall projectId, projectId ∈ polling st ->
    exists l, l ∈ loops st /\ loopProject l = projectId.

(** Every live loop is of a different project, and of one in [polling]. *)
Definition oneLoopEach (st : State) : Prop :=
  NoDup (loopProject <$> loops st)
  /\ forall l, l ∈ loops st -> loopProject l ∈ polling st.

End HomePage.

(** ** Sample data *)

Module Examples.
Import RobustStorage.

Definition mkProject (id name status created : string) : Project :=
  {[ "project_id" := JStr id; "project_name" := JStr name;
     "status" := JStr status; "created_at" := JStr created ]}.

(** An empty origin with the usual 5 MB of room. *)
Definition roomy : LocalStorage.t :=
  {| LocalStorage.items := ∅; LocalStorage.quota := 5 * 1024 * 1024 |}.

(** An origin whose room is used up by other entries. *)
Definition full : LocalStorage.t :=
  {| LocalStorage.items :=
       {[ "virgil_custom_project_names" :=
            JObj {[ "p1" := JStr "Shop" ]} ]};
     LocalStorage.quota := 40 |}.

Definition onStore (l : list Project) (ls : LocalStorage.t) : State :=
  {| projects := l; isStorageAvailable := true; localStorage := ls |}.

(** A project in its fourth round, with the results of the third. *)
Definition shop : Project :=
  <["test_results" := JObj {[ "success" := JBool false ]}]>
    (<["current_iteration" := JNum 3]>
       (mkProject "p1" "Shop" "running_tests" "2025-06-20T10:00:00.000Z")).

Definition blog : Project :=
  mkProject "p2" "Blog" "processing" "2025-06-21T09:30:00.000Z".

Definition archive : Project :=
  mkProject "p0" "Archive" "completed" "2024-01-15T08:00:00.000Z".

Definition page : HomePage.State :=
  HomePage.initial (onStore [blog; shop] roomy).

Definition noon : string := "2025-06-30T12:00:00.000Z".
Definition noonMs : Z := 1751284800000.

Definition accepted : Api.Result JValue :=
  Resolved (JObj {[ "success" := JBool true ]}).

(** Fifty-one projects, created on 1 January of 2010 to 2060, oldest
    first, and an origin with room for fifty of them. *)
Definition yearly (y : nat) : Project :=
  mkProject ("p" +:+ pretty y) "Demo" "completed"
    ("20" +:+ pretty y +:+ "-01-01T00:00:00.000Z").

Definition oldestFirst : list Project := yearly <$> seq 10 51.

Definition tight : LocalStorage.t :=
  {| LocalStorage.items := ∅; LocalStorage.quota := 5300 |}.

(** Two hundred projects created within one second of 1 January 2025,
    newest first. *)
Definition dated (n : nat) : Project :=
  mkProject ("q" +:+ pretty n) "Demo" "completed"
    ("2025-01-01T00:00:00." +:+ pretty n +:+ "Z").

Definition twoHundred : list Project := dated <$> reverse (seq 100 200).

(** The active list with two ids, in an origin with room. *)
Definition tracking : State :=
  onStore [blog; shop]
    {| LocalStorage.items :=
         {[ ACTIVE_PROJECTS_KEY := JArr [JStr "p2"; JStr "p7"] ]};
       LocalStorage.quota := 5 * 1024 * 1024 |}.



(** The hook after the archive, the shop and the blog have been saved on an
    origin with room. *)
Definition library : State :=
  (@saveProjects IsoDate.isoDate (onStore [] roomy) [archive; shop; blog]).1.

(** A project sent by the backend, not yet in the list. *)
Definition forum : Project :=
  mkProject "p3" "Forum" "" "2025-06-25T18:45:00.000Z".

End Examples.

(** * Properties *)

(** ** localStorage writes *)

Section LocalStorageFacts.
Import LocalStorage.

Lemma setItem_fits k v ls : fits k v ls -> setItem k v ls = Ok (written k v ls).
Proof.
  unfold fits, setItem, written. intros Hfit.
  destruct (Z.leb_spec (usage (<[k:=roundTrip v]> (items ls))) (quota ls));
    [reflexivity | lia].
Qed.

Lemma setItem_Ok k v ls ls' :
  setItem k v ls = Ok ls' -> fits k v ls /\ ls' = written k v ls.
Proof.
  unfold fits, setItem, written.
  destruct (Z.leb_spec (usage (<[k:=roundTrip v]> (items ls))) (quota ls));
    intros Heq; [| discriminate].
  injection Heq as <-. split; [assumption | reflexivity].
Qed.

Lemma setItem_Throw k v ls e : setItem k v ls = Throw e -> ~ fits k v ls.
Proof.
  unfold fits, setItem.
  destruct (Z.leb_spec (usage (<[k:=roundTrip v]> (items ls))) (quota ls));
    intros Heq; [discriminate | lia].
Qed.

Lemma getItem_written k v ls : getItem k (written k v ls) = Some (roundTrip v).
Proof. unfold getItem, written. simpl. apply lookup_insert_eq. Qed.

Lemma getItem_written_ne k k' v ls :
  k <> k' -> getItem k' (written k v ls) = getItem k' ls.
Proof. intros Hne. unfold getItem, written. simpl. by apply lookup_insert_ne. Qed.

End LocalStorageFacts.

(** ** Sorting and truncation in [saveProjects] *)

Section SaveProjects.
Context `{DateImpl}.
Import RobustStorage.

Lemma newerFirst_total : Total newerFirst.
Proof.
  intros a b. unfold newerFirst, compareCreated.
  destruct (createdAt a) as [ta|], (createdAt b) as [tb|]; simpl; auto.
  destruct (Z.le_gt_cases (tb - ta) 0); [left | right]; lia.
Qed.

Lemma MAX_PROJECTS_half : (MAX_PROJECTS / 2 = 100)%nat.
Proof. reflexivity. Qed.

Lemma Sorted_take {A} (R : relation A) n (l : list A) :
  Sorted R l -> Sorted R (take n l).
Proof.
  intros Hs. revert n. induction Hs as [| x l Hs IH Hhd]; intros [| n]; simpl;
    try constructor; auto.
  destruct Hhd, n; simpl; constructor; assumption.
Qed.

Lemma insertInOrder_Permutation {A} (R : relation A) `{!RelDecision R} x l :
  insertInOrder R x l ≡ₚ x :: l.
Proof.
  induction l as [| y l IH]; simpl; [reflexivity |].
  case_decide; [reflexivity |]. rewrite IH. apply Permutation_swap.
Qed.

Lemma insertInOrder_Sorted {A} (R : relation A) `{!RelDecision R} x l :
  Total R -> Sorted R l -> Sorted R (insertInOrder R x l).
Proof.
  intros Htotal Hs. induction Hs as [| y l Hs IH Hhd]; simpl.
  - repeat constructor.
  - case_decide as Hxy.
    + repeat constructor; assumption.
    + constructor; [assumption |].
      assert (Hyx : R y x) by (destruct (Htotal x y); [contradiction | assumption]).
      destruct Hhd as [| z l Hyz]; simpl; [by constructor |].
      case_decide; by constructor.
Qed.

Lemma sortNewestFirst_Sorted l : Sorted newerFirst (sortNewestFirst l).
Proof.
  unfold sortNewestFirst, stableSort.
  induction l as [| p l IH]; simpl; [constructor |].
  by apply insertInOrder_Sorted; [apply newerFirst_total |].
Qed.

Lemma sortNewestFirst_Permutation l : sortNewestFirst l ≡ₚ l.
Proof.
  unfold sortNewestFirst, stableSort.
  induction l as [| p l IH]; simpl; [reflexivity |].
  by rewrite insertInOrder_Permutation, IH.
Qed.

(** Projects that compare equal stay in the order they had. *)
Lemma sortNewestFirst_ties p q :
  compareCreated p q = Some 0 -> sortNewestFirst [p; q] = [p; q].
Proof.
  intros Htie. unfold sortNewestFirst, stableSort. simpl.
  case_decide as Hpq; [reflexivity |].
  exfalso. apply Hpq. unfold newerFirst. by rewrite Htie.
Qed.

(** With dates that all parse, "the comparator is never positive on
    neighbours" means that creation times never increase. *)
Lemma Sorted_newestFirst l :
  Forall (fun p => is_Some (createdAt p)) l ->
  Sorted newerFirst l -> newestFirst l.
Proof.
  unfold newestFirst. intros Hvalid Hs.
  induction Hs as [| x l Hs IH Hhd]; [constructor |].
  apply Forall_cons in Hvalid as [[tx Hx] Hvalid].
  specialize (IH Hvalid). constructor; [assumption |].
  destruct Hhd as [| y l Hxy]; [constructor |].
  apply Forall_cons in Hvalid as [[ty Hy] Hvalid].
  assert (Hle : ty <= tx).
  { unfold newerFirst, compareCreated in Hxy. rewrite Hx, Hy in Hxy.
    simpl in Hxy. lia. }
  constructor; [rewrite Hx, Hy; assumption |].
  apply StronglySorted_inv in IH as [_ Hall].
  eapply Forall_impl; [exact Hall |]. intros z Hz. simpl in Hz.
  rewrite Hy in Hz. rewrite Hx. destruct (createdAt z); [lia | assumption].
Qed.

Lemma keptProjects_prefix l :
  exists n, (n <= MAX_PROJECTS)%nat /\ keptProjects l = take n (sortNewestFirst l).
Proof.
  unfold keptProjects. case_match.
  - exists (MAX_PROJECTS / 2)%nat. split; [unfold MAX_PROJECTS; simpl; lia |].
    rewrite take_take. f_equal.
  - exists MAX_PROJECTS. split; [lia | reflexivity].
Qed.

Lemma keptProjects_length l : (length (keptProjects l) <= MAX_PROJECTS)%nat.
Proof.
  destruct (keptProjects_prefix l) as (n & Hn & ->). rewrite length_take. lia.
Qed.

Lemma keptProjects_Sorted l : Sorted newerFirst (keptProjects l).
Proof.
  destruct (keptProjects_prefix l) as (n & _ & ->).
  apply Sorted_take, sortNewestFirst_Sorted.
Qed.

Lemma keptProjects_elem p l : p ∈ keptProjects l -> p ∈ l.
Proof.
  destruct (keptProjects_prefix l) as (n & _ & ->). intros Hin.
  rewrite <- (sortNewestFirst_Permutation l).
  eapply elem_of_sublist; [exact Hin | apply sublist_take].
Qed.

(** Past 4 MB of JSON text only the first hundred are kept. *)
Lemma keptProjects_large l :
  MAX_STORAGE_SIZE / 2
    < LocalStorage.textLength (stringify (projectsJson (keptProjects l))) ->
  (length (keptProjects l) <= MAX_PROJECTS / 2)%nat.
Proof.
  unfold keptProjects.
  destruct (Z.ltb_spec (MAX_STORAGE_SIZE / 2)
              (LocalStorage.textLength
                 (stringify (projectsJson
                    (take MAX_PROJECTS (sortNewestFirst l)))))) as [Hbig | Hsmall].
  - intros _. rewrite length_take. lia.
  - intros Hbig. lia.
Qed.

Lemma keptProjects_small l :
  (length l <= MAX_PROJECTS / 2)%nat -> keptProjects l = sortNewestFirst l.
Proof.
  intros Hlen. unfold keptProjects.
  assert (Hs : length (sortNewestFirst l) = length l)
    by (apply Permutation_length, sortNewestFirst_Permutation).
  assert (Hhalf : (MAX_PROJECTS / 2 <= MAX_PROJECTS)%nat)
    by (unfold MAX_PROJECTS; simpl; lia).
  rewrite (take_ge (sortNewestFirst l) MAX_PROJECTS) by lia.
  case_match; [apply take_ge; lia | reflexivity].
Qed.

Lemma saveProjects_unfold st l :
  saveProjects st l =
  if negb (isStorageAvailable st) then (st, false)
  else
    match LocalStorage.setItem STORAGE_KEY (projectsJson (keptProjects l))
            (localStorage st) with
    | Ok ls => (setProjects (keptProjects l) (setLocalStorage ls st), true)
    | Throw _ =>
        match LocalStorage.setItem STORAGE_KEY (projectsJson (take 50 l))
                (localStorage st) with
        | Ok ls => (setProjects (take 50 l) (setLocalStorage ls st), true)
        | Throw _ => (st, false)
        end
    end.
Proof.
  unfold saveProjects, keptProjects.
  destruct (negb (isStorageAvailable st)); [reflexivity |].
  cbv zeta.
  destruct (LocalStorage.setItem STORAGE_KEY _ (localStorage st)) as [ls | []];
    reflexivity.
Qed.

Lemma saveProjects_normal st l :
  savesNormally st l -> saveProjects st l = (savedNormally st l, true).
Proof.
  intros [Havail Hfit]. rewrite saveProjects_unfold, Havail. simpl.
  rewrite (setItem_fits _ _ _ Hfit). reflexivity.
Qed.

(** The three ways [saveProjects] can end. *)
Lemma saveProjects_cases st l :
  (saveProjects st l = (st, false))
  \/ (savesNormally st l /\ saveProjects st l = (savedNormally st l, true))
  \/ (isStorageAvailable st = true
      /\ ~ LocalStorage.fits STORAGE_KEY (projectsJson (keptProjects l))
           (localStorage st)
      /\ saveProjects st l = (savedInEmergency st l, true)).
Proof.
  rewrite saveProjects_unfold.
  destruct (isStorageAvailable st) eqn:Havail; simpl; [| left; reflexivity].
  destruct (LocalStorage.setItem STORAGE_KEY
              (projectsJson (keptProjects l)) (localStorage st))
    as [ls | e] eqn:Hfirst.
  - apply setItem_Ok in Hfirst as [Hfit ->].
    right; left. split; [split; assumption | reflexivity].
  - apply setItem_Throw in Hfirst.
    destruct (LocalStorage.setItem STORAGE_KEY
                (projectsJson (take 50 l)) (localStorage st))
      as [ls | e'] eqn:Hsecond.
    + apply setItem_Ok in Hsecond as [_ ->].
      right; right. split; [reflexivity | split; [assumption | reflexivity]].
    + left; reflexivity.
Qed.

End SaveProjects.

(** ** Updating one project *)

Section UpdateProject.
Context `{DateImpl}.
Import RobustStorage.

Lemma mergeUpdate_lookup updates now p k :
  mergeUpdate updates now p !! k =
  if decide (k = "updated_at") then Some (JStr now)
  else match updates !! k with
       | Some v => Some v
       | None => p !! k
       end.
Proof.
  unfold mergeUpdate, spread. case_decide as Hk.
  - subst k. apply lookup_insert_eq.
  - rewrite lookup_insert_ne by congruence.
    destruct (updates !! k) as [v |] eqn:Hu.
    + by apply lookup_union_Some_l.
    + by rewrite lookup_union_r.
Qed.

Lemma mergeUpdate_prop updates now p k :
  k <> "updated_at" ->
  prop k (mergeUpdate updates now p) =
  match updates !! k with
  | Some v => v
  | None => prop k p
  end.
Proof.
  intros Hk. unfold prop at 1. rewrite mergeUpdate_lookup.
  case_decide; [contradiction |]. by destruct (updates !! k).
Qed.

Lemma mergeUpdate_hasId id updates now p :
  updates !! "project_id" = None ->
  hasId id (mergeUpdate updates now p) = hasId id p.
Proof.
  intros Hnone. unfold hasId.
  rewrite mergeUpdate_prop by discriminate. by rewrite Hnone.
Qed.

Lemma getProject_Some st projectId e :
  getProject st projectId = Some e ->
  e ∈ projects st /\ hasId (JStr projectId) e = true.
Proof.
  unfold getProject. intros Hfind. apply find_some in Hfind as [Hin Hid].
  split; [by apply list_elem_of_In | assumption].
Qed.

Lemma getProject_is_Some st projectId e :
  e ∈ projects st -> hasId (JStr projectId) e = true ->
  is_Some (getProject st projectId).
Proof.
  intros Hin Hid. unfold getProject.
  destruct (List.find (hasId (JStr projectId)) (projects st)) eqn:Hfind;
    [eauto |].
  apply list_elem_of_In in Hin.
  pose proof (find_none _ _ Hfind _ Hin) as Hno. congruence.
Qed.

Lemma elem_of_updatedProjects st id updates now q :
  q ∈ updatedProjects st id updates now ->
  exists p, p ∈ projects st
            /\ q = if hasId id p then mergeUpdate updates now p else p.
Proof.
  unfold updatedProjects. intros Hin.
  apply list_elem_of_fmap in Hin as (p & -> & Hp). eauto.
Qed.

(** What [saveProjects] leaves in [projects] comes from its argument, or
    nothing changed. *)
Lemma saveProjects_projects st l :
  (saveProjects st l).1 = st
  \/ (forall q, q ∈ projects (saveProjects st l).1 -> q ∈ l).
Proof.
  destruct (saveProjects_cases st l) as [-> | [[_ ->] | (_ & _ & ->)]]; simpl.
  - by left.
  - right. intros q. apply keptProjects_elem.
  - right. intros q Hq. eapply elem_of_sublist; [exact Hq | apply sublist_take].
Qed.


Lemma found_after_saved_update st projectId updates now e' :
  savesNormally st (updatedProjects st (JStr projectId) updates now) ->
  getProject (updateProject st projectId updates now) projectId = Some e' ->
  exists p, p ∈ projects st /\ hasId (JStr projectId) p = true
            /\ e' = mergeUpdate updates now p.
Proof.
  intros Hsave Hfound. unfold updateProject, updateProjectById in *.
  rewrite (saveProjects_normal _ _ Hsave) in Hfound. simpl in Hfound.
  apply getProject_Some in Hfound as [Hin Hid]. simpl in Hin.
  apply keptProjects_elem, elem_of_updatedProjects in Hin as (p & Hp & ->).
  destruct (hasId (JStr projectId) p) eqn:Hpid; [eauto | congruence].
Qed.

Lemma present_after_saved_update st projectId updates now e :
  savesNormally st (updatedProjects st (JStr projectId) updates now) ->
  (length (projects st) <= MAX_PROJECTS / 2)%nat ->
  updates !! "project_id" = None ->
  e ∈ projects st -> hasId (JStr projectId) e = true ->
  is_Some (getProject (updateProject st projectId updates now) projectId).
Proof.
  intros Hsave Hlen Hnoid Hin Hid.
  apply (getProject_is_Some _ _ (mergeUpdate updates now e)).
  - unfold updateProject, updateProjectById.
    rewrite (saveProjects_normal _ _ Hsave). simpl.
    rewrite keptProjects_small
      by (unfold updatedProjects; rewrite length_map; exact Hlen).
    rewrite sortNewestFirst_Permutation. unfold updatedProjects.
    apply list_elem_of_fmap. exists e. by rewrite Hid.
  - by rewrite mergeUpdate_hasId.
Qed.

Lemma mergeUpdate_keepsId projectId updates now p :
  keepsId projectId updates ->
  hasId (JStr projectId) p = true ->
  hasId (JStr projectId) (mergeUpdate updates now p) = true.
Proof.
  unfold keepsId, hasId. intros Hkeep Hp.
  rewrite mergeUpdate_prop by discriminate.
  destruct (updates !! "project_id") as [v |]; [| exact Hp].
  subst v. simpl. apply String.eqb_refl.
Qed.

(** An update whose write is accepted, on a list of at most 100 projects:
    the project is found afterwards, and it is a project of the list with
    the update merged in. *)
Lemma updated_project st projectId updates now e :
  getProject st projectId = Some e ->
  savesNormally st (updatedProjects st (JStr projectId) updates now) ->
  (length (projects st) <= MAX_PROJECTS / 2)%nat ->
  keepsId projectId updates ->
  exists e' p,
    getProject (updateProject st projectId updates now) projectId = Some e'
    /\ p ∈ projects st /\ hasId (JStr projectId) p = true
    /\ e' = mergeUpdate updates now p.
Proof.
  intros He Hsave Hlen Hkeep.
  destruct (getProject_Some _ _ _ He) as [Hin Hid].
  assert (Hsome : is_Some (getProject (updateProject st projectId updates now)
                             projectId)).
  { apply (getProject_is_Some _ _ (mergeUpdate updates now e)).
    - unfold updateProject, updateProjectById.
      rewrite (saveProjects_normal _ _ Hsave). simpl.
      rewrite keptProjects_small
        by (unfold updatedProjects; rewrite length_map; exact Hlen).
      rewrite sortNewestFirst_Permutation. unfold updatedProjects.
      apply list_elem_of_fmap. exists e. by rewrite Hid.
    - by apply mergeUpdate_keepsId. }
  destruct Hsome as [e' He']. exists e'.
  destruct (found_after_saved_update _ _ _ _ _ Hsave He')
    as (p & Hp & Hpid & ->).
  by exists p.
Qed.

End UpdateProject.

(** ** What [saveProjects] persists *)

Section PersistedList.
Context `{DateImpl}.
Import RobustStorage.

(** What a [saveProjects] call that returns [true] has persisted: the new
    [projects] state, of at most 200 projects, at most 100 whenever its
    JSON text is longer than 4 MB.  When the first write is accepted it is
    in newest-first order (creation times never increase when all dates
    parse); otherwise the call went through the quota emergency and holds
    the first 50 projects of the caller's list in the caller's order. *)
Lemma saveProjects_persisted_list st l st' :
  saveProjects st l = (st', true) ->
  persisted st' = Some (roundTrip (projectsJson (projects st')))
  /\ (length (projects st') <= MAX_PROJECTS)%nat
  /\ (MAX_STORAGE_SIZE / 2
        < LocalStorage.textLength (stringify (projectsJson (projects st'))) ->
      (length (projects st') <= MAX_PROJECTS / 2)%nat)
  /\ ((savesNormally st l
       /\ projects st' = keptProjects l
       /\ Sorted newerFirst (projects st')
       /\ (Forall (fun p => is_Some (createdAt p)) l ->
           newestFirst (projects st')))
      \/ (~ savesNormally st l /\ projects st' = take 50 l)).
Proof.
  intros Hsave.
  destruct (saveProjects_cases st l) as [Hno | [[Hn Hyes] | (Ha & Hnf & Hyes)]];
    rewrite Hsave in *.
  - discriminate.
  - injection Hyes as ->. simpl. split_and!.
    + apply getItem_written.
    + apply keptProjects_length.
    + apply keptProjects_large.
    + left. split_and!; [assumption | reflexivity | apply keptProjects_Sorted |].
      intros Hvalid. apply Sorted_newestFirst; [| apply keptProjects_Sorted].
      apply Forall_forall. intros p Hp%keptProjects_elem.
      by eapply Forall_forall in Hvalid.
  - injection Hyes as ->. simpl. split_and!.
    + apply getItem_written.
    + rewrite length_take. unfold MAX_PROJECTS. lia.
    + intros _. rewrite length_take. lia.
    + right. split; [| reflexivity]. intros [_ Hfit]. contradiction.
Qed.

(** Cleanup when storage accepts its write. *)
Lemma forceCleanup_saved st now :
  savesNormally st (recentProjects st now) ->
  let st' := (forceCleanup st now).1 in
  let result := (forceCleanup st now).2 in
  projects st' ≡ₚ take 100 (List.filter (isRecent now) (projects st))
  /\ (forall p, p ∈ projects st' ->
        p ∈ projects st
        /\ exists t, createdAt p = Some t /\ cutoffDate now < t)
  /\ Sorted newerFirst (projects st')
  /\ persisted st' = Some (roundTrip (projectsJson (projects st')))
  /\ removed result
     = Z.of_nat (length (projects st)) - Z.of_nat (length (projects st'))
  /\ remaining result = Z.of_nat (length (projects st')).
Proof.
  intros Hsave. unfold forceCleanup.
  rewrite (saveProjects_normal _ _ Hsave).
  unfold savedNormally, persisted, setProjects, setLocalStorage.
  cbn [fst snd projects localStorage removed remaining].
  assert (Hlen : (length (recentProjects st now) <= MAX_PROJECTS / 2)%nat).
  { unfold recentProjects. rewrite length_take, MAX_PROJECTS_half. lia. }
  rewrite (keptProjects_small _ Hlen).
  assert (Hperm : sortNewestFirst (recentProjects st now)
                  ≡ₚ take 100 (List.filter (isRecent now) (projects st)))
    by apply sortNewestFirst_Permutation.
  split_and!.
  - exact Hperm.
  - intros p Hp. rewrite Hperm in Hp.
    pose proof (elem_of_sublist _ _ _ Hp (sublist_take _ _)) as Hp'.
    apply list_elem_of_In, filter_In in Hp' as [Hin Hrecent].
    split; [by apply list_elem_of_In |].
    unfold isRecent in Hrecent.
    destruct (createdAt p) as [t |]; [| discriminate].
    exists t. split; [reflexivity |]. by apply Z.ltb_lt.
  - apply sortNewestFirst_Sorted.
  - apply getItem_written.
  - by rewrite (Permutation_length (sortNewestFirst_Permutation _)).
  - by rewrite (Permutation_length (sortNewestFirst_Permutation _)).
Qed.

End PersistedList.

Section PersistedListExamples.
Import RobustStorage Examples.
#[local] Existing Instance IsoDate.isoDate.

Lemma saveProjects_persisted_list_witness :
  saveProjects (onStore [] roomy) [shop; blog]
    = ((saveProjects (onStore [] roomy) [shop; blog]).1, true)
  /\ projects (saveProjects (onStore [] roomy) [shop; blog]).1 = [blog; shop]
  /\ (length (projects (saveProjects (onStore [] roomy) [shop; blog]).1)
      <= MAX_PROJECTS)%nat.
Proof.
  split; [reflexivity |]. split; [reflexivity |].
  apply (saveProjects_persisted_list (onStore [] roomy) [shop; blog]
           (saveProjects (onStore [] roomy) [shop; blog]).1).
  reflexivity.
Defined.

(** C9.  A file of 51 projects created on 1 January of 2010 to 2060, oldest
    first, is imported into an empty list on an origin with room for fifty
    of them.  The first write of [saveProjects] is refused and its emergency
    branch, meant to keep the last 50 projects, cuts the caller's list
    before any sorting: the call succeeds, the persisted list runs from the
    project of 2010 to the one of 2059, oldest first, and the newest
    project is the one that is dropped. *)
Theorem import_emergency_keeps_oldest :
  let out := importProjects (onStore [] tight) (Some oldestFirst) in
  Forall (fun p => is_Some (createdAt p)) oldestFirst
  /\ success out.2 = true
  /\ count out.2 = Some 51%nat
  /\ projects out.1 = take 50 oldestFirst
  /\ persisted out.1 = Some (roundTrip (projectsJson (projects out.1)))
  /\ length (projects out.1) = 50%nat
  /\ prop "project_id" <$> head (projects out.1) = Some (JStr "p10")
  /\ prop "project_id" <$> last (projects out.1) = Some (JStr "p59")
  /\ prop "project_id" <$> last oldestFirst = Some (JStr "p60")
  /\ createdAt <$> take 2 (projects out.1)
     = [Some 1262304000000; Some 1293840000000]
  /\ ~ Sorted newerFirst (projects out.1).
Proof.
  assert (Hout : importProjects (onStore [] tight) (Some oldestFirst)
                 = (savedInEmergency (onStore [] tight) oldestFirst,
                    {| success := true; count := Some 51%nat |}))
    by reflexivity.
  cbv zeta. rewrite Hout. cbn [fst snd success count].
  split_and!; try reflexivity.
  - assert (Hall : forallb (fun p => match createdAt p with
                                     | Some _ => true
                                     | None => false
                                     end) oldestFirst = true)
      by (vm_compute; reflexivity).
    apply Forall_forall. intros p Hp%list_elem_of_In.
    apply (proj1 (forallb_forall _ _) Hall) in Hp.
    destruct (createdAt p); [eauto | discriminate].
  - intros Hsorted. apply (Sorted_take _ 2) in Hsorted.
    change (Sorted newerFirst [yearly 10; yearly 11]) in Hsorted.
    inversion Hsorted as [| a l _ Hhd]; subst.
    inversion Hhd as [| b l' Hab]; subst.
    vm_compute in Hab. apply Hab. reflexivity.
Qed.

(** An older project added to two hundred newer ones falls off the sorted
    list; [addProject] does not find it among the persisted projects and
    writes the whole list again, 201 projects with the oldest in front,
    while the [projects] state keeps the 200 that were saved. *)
Lemma addProject_rewrites_whole_list :
  let out := addProject (onStore twoHundred roomy) archive noon in
  out.2 = Some true
  /\ length (projects out.1) = 200%nat
  /\ match persisted out.1 with
     | Some (JArr stored) =>
         length stored = 201%nat
         /\ match head stored with
            | Some (JObj p) => prop "project_id" p = JStr "p0"
            | _ => False
            end
     | _ => False
     end.
Proof. vm_compute. repeat split; reflexivity. Qed.

End PersistedListExamples.

(** ** Name-preserving updates, stop and regenerate *)

Section SafeUpdates.
Context `{DateImpl}.
Import RobustStorage HomePage.


Lemma safeUpdate_lookup e newData k :
  safeUpdate e newData !! k =
  if decide (k = "project_name") then Some (prop "project_name" e)
  else newData !! k.
Proof.
  unfold safeUpdate. case_decide as Hk.
  - subst k. apply lookup_insert_eq.
  - by rewrite lookup_insert_ne.
Qed.

Lemma store_updateProjectSafely st projectId newData now :
  store (updateProjectSafely st projectId newData now) =
  updateProject (store st) projectId
    (match getProject (store st) projectId with
     | Some e => safeUpdate e newData
     | None => newData
     end) now.
Proof.
  unfold updateProjectSafely.
  by destruct (getProject (store st) projectId).
Qed.


(** C1, as amended.  For a project present in a store of at most 100
    projects whose write is accepted, a stop request that the backend
    accepts leaves the project with status [failed] (there is no separate
    stopped status), [stopped_by_user] set and [stopped_at] the time of the
    stop; its name and every field other than these and [updated_at], the
    captured [test_results] and [current_iteration] among them, stay as
    they were; the id leaves the polling and the active set. *)
Theorem stop_marks_failed_by_user st projectId response now e :
  getProject (store st) projectId = Some e ->
  savesNormally (store st)
    (updatedProjects (store st) (JStr projectId)
       (safeUpdate e (stoppedFields now)) now) ->
  (length (projects (store st)) <= MAX_PROJECTS / 2)%nat ->
  let st' := handleStopGeneration st projectId (Resolved response) now in
  (exists e' p,
      getProject (store st') projectId = Some e'
      /\ p ∈ projects (store st) /\ hasId (JStr projectId) p = true
      /\ prop "status" e' = JStr "failed"
      /\ prop "stopped_by_user" e' = JBool true
      /\ prop "stopped_at" e' = JStr now
      /\ prop "project_name" e' = prop "project_name" e
      /\ prop "test_results" e' = prop "test_results" p
      /\ prop "current_iteration" e' = prop "current_iteration" p
      /\ forall k, k ∉ ["status"; "stopped_by_user"; "stopped_at";
                        "project_name"; "updated_at"] ->
           e' !! k = p !! k)
  /\ (projectId ∉ polling st')
  /\ (projectId ∉ activeProjects st')
  /\ notice st' = Some GenerationStopped.
Proof.
  intros Hget Hsave Hlen st'. subst st'. unfold handleStopGeneration.
  split;
    [| cbn [polling activeProjects notice setNotice untrackActiveProject
              setActiveProjects setPolling];
       split_and!; [| | reflexivity];
       rewrite elem_of_difference, elem_of_singleton; tauto].
  cbn [setNotice untrackActiveProject setActiveProjects setPolling store].
  rewrite store_updateProjectSafely, Hget.
  destruct (getProject_Some _ _ _ Hget) as [Hin Hid].
  destruct (present_after_saved_update _ projectId
              (safeUpdate e (stoppedFields now)) now e Hsave Hlen)
    as [e' Hfound]; [reflexivity | assumption | assumption |].
  destruct (found_after_saved_update _ _ _ _ _ Hsave Hfound)
    as (p & Hp & Hpid & ->).
  exists (mergeUpdate (safeUpdate e (stoppedFields now)) now p), p.
  split_and!; try assumption;
    try (rewrite mergeUpdate_prop by discriminate; reflexivity).
  intros k Hk. rewrite mergeUpdate_lookup, safeUpdate_lookup.
  apply not_elem_of_cons in Hk as [? Hk].
  apply not_elem_of_cons in Hk as [? Hk].
  apply not_elem_of_cons in Hk as [? Hk].
  apply not_elem_of_cons in Hk as [? Hk].
  apply not_elem_of_cons in Hk as [? _].
  repeat case_decide; try contradiction.
  unfold stoppedFields. by simplify_map_eq.
Qed.

Lemma store_pollProjectStatusFrom seen st projectId :
  store (pollProjectStatusFrom seen st projectId) = store st.
Proof. unfold pollProjectStatusFrom. by case_bool_decide. Qed.

Lemma store_pollTail projectId status st :
  store (pollTail projectId status st).1 = store st.
Proof. unfold pollTail. by destruct (isTerminal status). Qed.

(** C5, as amended.  For a project present in a store of at most 100
    projects, whenever the write is accepted: after an update the stored
    [current_iteration] is the value the update carries, or the one there
    was when it carries none.  Nothing compares it with the stored value:
    regenerate and modify set it to 0, and a response of the status monitor
    stores the value the backend reports. *)
Theorem current_iteration_follows_updates st projectId e now :
  getProject (store st) projectId = Some e ->
  (length (projects (store st)) <= MAX_PROJECTS / 2)%nat ->
  (forall updates,
     keepsId projectId updates ->
     savesNormally (store st)
       (updatedProjects (store st) (JStr projectId) updates now) ->
     exists e' p,
       getProject (updateProject (store st) projectId updates now) projectId
         = Some e'
       /\ p ∈ projects (store st) /\ hasId (JStr projectId) p = true
       /\ prop "current_iteration" e'
          = match updates !! "current_iteration" with
            | Some v => v
            | None => prop "current_iteration" p
            end)
  /\ (forall seen response,
        savesNormally (store st)
          (updatedProjects (store st) (JStr projectId)
             (safeUpdate e regeneratedFields) now) ->
        exists e',
          getProject
            (store (handleRegenerateProject seen st projectId
                      (Resolved response) now)) projectId = Some e'
          /\ prop "current_iteration" e' = JNum 0)
  /\ (forall modification_id mode,
        savesNormally (store st)
          (updatedProjects (store st) (JStr projectId)
             {[ "status" := JStr "processing";
                "modification_id" := modification_id;
                "current_iteration" := JNum 0;
                "modification_mode" := mode ]} now) ->
        exists e',
          getProject
            (store (handleModifyProject st projectId modification_id mode
                      now)) projectId = Some e'
          /\ prop "current_iteration" e' = JNum 0)
  /\ (forall status reported,
        usesReportedName (prop "project_name" status) projectId
          = Some reported ->
        keepsId projectId status ->
        savesNormally (store st)
          (updatedProjects (store st) (JStr projectId)
             (<["project_name" :=
                  if reported then prop "project_name" status
                  else prop "project_name" e]> status) now) ->
        exists e' p,
          getProject (store (poll st projectId (Resolved status) now).1)
            projectId = Some e'
          /\ p ∈ projects (store st) /\ hasId (JStr projectId) p = true
          /\ prop "current_iteration" e'
             = match status !! "current_iteration" with
               | Some v => v
               | None => prop "current_iteration" p
               end).
Proof.
  intros He Hlen. split_and!.
  - intros updates Hkeep Hsave.
    destruct (updated_project _ _ _ _ _ He Hsave Hlen Hkeep)
      as (e' & p & Hfound & Hp & Hid & ->).
    exists (mergeUpdate updates now p), p. split_and!; try assumption.
    by rewrite mergeUpdate_prop by discriminate.
  - intros seen response Hsave.
    assert (Hkeep : keepsId projectId (safeUpdate e regeneratedFields)).
    { unfold keepsId. rewrite safeUpdate_lookup.
      by rewrite decide_False by discriminate. }
    destruct (updated_project _ _ _ _ _ He Hsave Hlen Hkeep)
      as (e' & p & Hfound & _ & _ & ->).
    exists (mergeUpdate (safeUpdate e regeneratedFields) now p). split.
    + unfold handleRegenerateProject. cbn [store setNotice].
      rewrite store_pollProjectStatusFrom, store_updateProjectSafely.
      cbn [store setNotice]. by rewrite He.
    + rewrite mergeUpdate_prop by discriminate.
      by rewrite safeUpdate_lookup, decide_False by discriminate.
  - intros modification_id mode Hsave.
    destruct (updated_project _ _ _ _ _ He Hsave Hlen I)
      as (e' & p & Hfound & _ & _ & ->).
    eexists. split.
    + unfold handleModifyProject, pollProjectStatus. cbn [store setNotice].
      rewrite store_pollProjectStatusFrom. exact Hfound.
    + by rewrite mergeUpdate_prop by discriminate.
  - intros status reported Hname Hkeep Hsave.
    assert (Hkeep' : keepsId projectId
              (<["project_name" :=
                   if reported then prop "project_name" status
                   else prop "project_name" e]> status)).
    { unfold keepsId in *. by rewrite lookup_insert_ne by discriminate. }
    destruct (updated_project _ _ _ _ _ He Hsave Hlen Hkeep')
      as (e' & p & Hfound & Hp & Hid & ->).
    eexists _, p. split_and!; try assumption.
    + unfold poll. rewrite He, Hname, store_pollTail. exact Hfound.
    + rewrite mergeUpdate_prop by discriminate.
      by rewrite lookup_insert_ne by discriminate.
Qed.

End SafeUpdates.

Section SafeUpdateExamples.
Import RobustStorage HomePage Examples.
#[local] Existing Instance IsoDate.isoDate.



(** An [updated_at] carried by [newData] is not applied: the stored value
    is the time of the call. *)
Lemma updateProjectSafely_drops_updated_at :
  let newData : Obj :=
    {[ "updated_at" := JStr "2025-06-29T08:00:00.000Z";
       "status" := JStr "completed" ]} in
  let st' := updateProjectSafely page "p1" newData noon in
  prop "updated_at" <$> getProject (store st') "p1" = Some (JStr noon)
  /\ prop "status" <$> getProject (store st') "p1" = Some (JStr "completed")
  /\ prop "project_name" <$> getProject (store st') "p1" = Some (JStr "Shop")
  /\ newData !! "updated_at" = Some (JStr "2025-06-29T08:00:00.000Z").
Proof. vm_compute. repeat split; reflexivity. Qed.

Lemma stop_marks_failed_by_user_witness :
  getProject (store page) "p1" = Some shop
  /\ notice (handleStopGeneration page "p1" accepted noon)
     = Some GenerationStopped.
Proof.
  split; [reflexivity |].
  refine (proj2 (proj2 (proj2
    (stop_marks_failed_by_user page "p1"
       (JObj {[ "success" := JBool true ]}) noon shop _ _ _)))).
  - reflexivity.
  - split; [reflexivity |]. unfold LocalStorage.fits. vm_compute. discriminate.
  - vm_compute. lia.
Defined.

(** A project that is running its tests is stopped: its status becomes
    [failed], not a stopped status of its own, and the results captured so
    far stay as they were, without being marked. *)
Lemma stop_yields_failed_status :
  let st' := handleStopGeneration page "p1" accepted noon in
  ProjectDetails.isGenerating shop = true
  /\ prop "status" <$> getProject (store st') "p1" = Some (JStr "failed")
  /\ prop "status" <$> getProject (store st') "p1" <> Some (JStr "stopped")
  /\ prop "stopped_by_user" <$> getProject (store st') "p1"
     = Some (JBool true)
  /\ prop "test_results" <$> getProject (store st') "p1"
     = Some (prop "test_results" shop).
Proof.
  cbv zeta.
  assert (Hstatus :
    prop "status"
      <$> getProject (store (handleStopGeneration page "p1" accepted noon)) "p1"
    = Some (JStr "failed")) by (vm_compute; reflexivity).
  split_and!; [reflexivity | exact Hstatus | rewrite Hstatus; discriminate
              | vm_compute; reflexivity | reflexivity].
Qed.

Lemma current_iteration_follows_updates_witness :
  getProject (store page) "p1" = Some shop
  /\ exists e',
       getProject
         (store (handleRegenerateProject ∅ page "p1" accepted noon)) "p1"
         = Some e'
       /\ prop "current_iteration" e' = JNum 0.
Proof.
  split; [reflexivity |].
  refine (proj1 (proj2 (current_iteration_follows_updates page "p1" shop noon
                          _ _)) ∅ (JObj {[ "success" := JBool true ]}) _).
  - reflexivity.
  - vm_compute. lia.
  - split; [reflexivity |]. unfold LocalStorage.fits. vm_compute. discriminate.
Defined.

(** Regenerating a project in its fourth round takes [current_iteration]
    from 3 back to 0, and so does a response of the status monitor that
    reports round 1. *)
Lemma regenerate_lowers_current_iteration :
  let st' := handleRegenerateProject (polling page) page "p1" accepted noon in
  let polled :=
    (poll page "p1"
       (Resolved {[ "status" := JStr "generating_code";
                    "current_iteration" := JNum 1 ]}) noon).1 in
  prop "current_iteration" <$> getProject (store page) "p1" = Some (JNum 3)
  /\ prop "current_iteration" <$> getProject (store st') "p1"
     = Some (JNum 0)
  /\ prop "current_iteration" <$> getProject (store polled) "p1"
     = Some (JNum 1).
Proof. vm_compute. repeat split; reflexivity. Qed.

End SafeUpdateExamples.

(** ** When stopping is offered, and when polling ends *)

Section StopAndPoll.
Context `{DateImpl}.
Import RobustStorage HomePage ProjectDetails.

Lemma strictEq_JStr v s : strictEq v (JStr s) = true <-> v = JStr s.
Proof.
  destruct v; simpl; try (split; [discriminate | congruence]).
  rewrite String.eqb_eq. split; congruence.
Qed.

Lemma isGenerating_iff project :
  isGenerating project = true <->
  exists s, prop "status" project = JStr s
            /\ s ∈ ["processing"; "generating_code"; "generating_tests";
                    "running_tests"].
Proof.
  unfold isGenerating. rewrite existsb_exists. split.
  - intros (v & Hin & Heq). apply list_elem_of_In in Hin.
    repeat (apply elem_of_cons in Hin as [-> | Hin]);
      [| | | | by apply elem_of_nil in Hin];
      simpl in Heq; destruct (prop "status" project); try discriminate;
      apply String.eqb_eq in Heq; subst; eexists; split; try reflexivity;
      set_solver.
  - intros (s & Hs & Hin). exists (JStr s).
    split; [| rewrite Hs; simpl; apply String.eqb_refl].
    apply list_elem_of_In.
    repeat (apply elem_of_cons in Hin as [-> | Hin]);
      [| | | | by apply elem_of_nil in Hin]; set_solver.
Qed.

(** C2, as amended.  A stop control is offered exactly while the status is
    one of [processing], [generating_code], [generating_tests] and
    [running_tests] (and the page passed a handler).  The handler has no
    status check of its own.  Whenever the backend call resolves it takes
    the id out of the polling and the active set and reports the stop, and a
    project present in a store of at most 100 projects whose write is
    accepted is then stored as [failed] and stopped by the user, whatever
    its status was.  A request the backend rejects changes nothing but the
    message shown, and when the backend cannot be asked whether stopping is
    possible the button assumes that it is. *)
Theorem stop_offered_while_generating handler project st projectId response
    e now button :
  (stopControlRendered handler project = true <->
   handler = true
   /\ exists s, prop "status" project = JStr s
                /\ s ∈ ["processing"; "generating_code"; "generating_tests";
                        "running_tests"])
  /\ (let st' := handleStopGeneration st projectId (Resolved response) now in
      (projectId ∉ polling st')
      /\ (projectId ∉ activeProjects st')
      /\ notice st' = Some GenerationStopped
      /\ forall found,
           getProject (store st) projectId = Some found ->
           savesNormally (store st)
             (updatedProjects (store st) (JStr projectId)
                (safeUpdate found (stoppedFields now)) now) ->
           (length (projects (store st)) <= MAX_PROJECTS / 2)%nat ->
           exists e',
             getProject (store st') projectId = Some e'
             /\ prop "status" e' = JStr "failed"
             /\ prop "stopped_by_user" e' = JBool true)
  /\ handleStopGeneration st projectId (Rejected e) now
     = setNotice (Some StopError) st
  /\ StopGenerationButton.can_stop
       (StopGenerationButton.checkCanStop false (Rejected e) button) = true.
Proof.
  split_and!; [| | reflexivity | reflexivity].
  - unfold stopControlRendered. rewrite andb_true_iff, isGenerating_iff. tauto.
  - cbv zeta. unfold handleStopGeneration.
    cbn [polling activeProjects notice store setNotice untrackActiveProject
           setActiveProjects setPolling].
    split_and!; [| | reflexivity |].
    + rewrite elem_of_difference, elem_of_singleton. tauto.
    + rewrite elem_of_difference, elem_of_singleton. tauto.
    + intros found Hfound Hsave Hlen.
      rewrite store_updateProjectSafely, Hfound.
      assert (Hkeep : keepsId projectId (safeUpdate found (stoppedFields now))).
      { unfold keepsId. rewrite safeUpdate_lookup.
        by rewrite decide_False by discriminate. }
      destruct (updated_project _ _ _ _ _ Hfound Hsave Hlen Hkeep)
        as (e' & p & He' & _ & _ & ->).
      eexists. split; [exact He' |].
      rewrite !mergeUpdate_prop by discriminate.
      rewrite !safeUpdate_lookup, !decide_False by discriminate.
      by split.
Qed.

Lemma isTerminal_iff status :
  isTerminal status = true <->
  prop "status" status = JStr "completed"
  \/ prop "status" status = JStr "failed"
  \/ prop "status" status = JStr "error".
Proof.
  unfold isTerminal. rewrite !orb_true_iff, !strictEq_JStr. tauto.
Qed.

Lemma pollTail_again projectId status st :
  (pollTail projectId status st).2 = negb (isTerminal status).
Proof. unfold pollTail. by destruct (isTerminal status). Qed.

Lemma usesReportedName_text status projectId :
  nameIsText status ->
  is_Some (usesReportedName (prop "project_name" status) projectId).
Proof.
  unfold nameIsText, usesReportedName.
  destruct (prop "project_name" status); simpl; try contradiction; eauto.
  intros _. case_match; eauto.
Qed.

(** C4, as amended.  On a response that names the project by a string or
    not at all (the stored custom names being an object), a polling step of
    either monitor ends the loop exactly when the reported status is
    [completed], [failed] or [error], and schedules the next poll for every
    other status. *)
Theorem poll_ends_on_terminal_status st projectId names status now :
  nameIsText status ->
  ((poll st projectId (Resolved status) now).2 = false <->
   prop "status" status = JStr "completed"
   \/ prop "status" status = JStr "failed"
   \/ prop "status" status = JStr "error")
  /\ ((pollNamed st projectId (JObj names) (Resolved status) now).2 = false <->
      prop "status" status = JStr "completed"
      \/ prop "status" status = JStr "failed"
      \/ prop "status" status = JStr "error").
Proof.
  intros Htext. rewrite <- isTerminal_iff.
  assert (Hneg : forall b, negb b = false <-> b = true)
    by (intros []; simpl; split; congruence).
  split.
  - unfold poll. destruct (getProject (store st) projectId).
    + destruct (usesReportedName_text status projectId Htext) as [b ->].
      rewrite pollTail_again. apply Hneg.
    + rewrite pollTail_again. apply Hneg.
  - unfold pollNamed. cbn [member].
    destruct (getProject (store st) projectId);
      rewrite pollTail_again; apply Hneg.
Qed.

End StopAndPoll.

Section StopAndPollExamples.
Import RobustStorage HomePage ProjectDetails Examples.
#[local] Existing Instance IsoDate.isoDate.

(** A project whose status is [processing], none of the three generating
    states, is offered the stop control, and the stop is carried out. *)
Lemma stop_offered_and_done_while_processing :
  let st' := handleStopGeneration page "p2" accepted noon in
  prop "status" blog = JStr "processing"
  /\ stopControlRendered true blog = true
  /\ notice st' = Some GenerationStopped
  /\ prop "status" <$> getProject (store st') "p2" = Some (JStr "failed").
Proof. vm_compute. repeat split; reflexivity. Qed.

(** A completed project is offered no stop control; a stop request for it
    that the backend accepts is carried out all the same. *)
Lemma stop_offered_while_generating_witness :
  stopControlRendered true archive = false
  /\ exists e',
       getProject
         (store (handleStopGeneration
                   (HomePage.initial (onStore [shop; archive] roomy)) "p0"
                   accepted noon)) "p0" = Some e'
       /\ prop "status" e' = JStr "failed"
       /\ prop "stopped_by_user" e' = JBool true.
Proof.
  split; [reflexivity |].
  refine (proj2 (proj2 (proj2 (proj1 (proj2
    (stop_offered_while_generating true archive
       (HomePage.initial (onStore [shop; archive] roomy)) "p0"
       (JObj {[ "success" := JBool true ]})
       {| Api.name := "Error"; Api.message := "refused" |} noon
       StopGenerationButton.initial))))) archive _ _ _).
  - reflexivity.
  - split; [reflexivity |]. unfold LocalStorage.fits. vm_compute. discriminate.
  - vm_compute. lia.
Defined.

Lemma poll_ends_on_terminal_status_witness :
  nameIsText {[ "status" := JStr "completed" ]}
  /\ (poll page "p1" (Resolved {[ "status" := JStr "completed" ]}) noon).2
     = false.
Proof.
  assert (Htext : nameIsText {[ "status" := JStr "completed" ]}) by exact I.
  split; [exact Htext |].
  apply (proj1 (poll_ends_on_terminal_status page "p1" ∅
                  {[ "status" := JStr "completed" ]} noon Htext)).
  left. reflexivity.
Defined.

(** A reported status [stopped] does not end the loop: the next poll is
    scheduled. *)
Lemma poll_continues_on_stopped :
  (poll page "p1" (Resolved {[ "status" := JStr "stopped" ]}) noon).2 = true
  /\ (pollNamed page "p1" (JObj ∅)
        (Resolved {[ "status" := JStr "stopped" ]}) noon).2 = true.
Proof. vm_compute. split; reflexivity. Qed.

End StopAndPollExamples.

(** ** One polling loop per project *)

Section PollingLoops.
Context `{DateImpl}.
Import RobustStorage HomePage.

Lemma oneLoopEach_same st st' :
  loops st' = loops st -> polling st' = polling st ->
  oneLoopEach st -> oneLoopEach st'.
Proof. unfold oneLoopEach. by intros -> ->. Qed.

(** A second start for a project that is being polled does nothing. *)
Lemma pollProjectStatus_guard st projectId :
  projectId ∈ polling st ->
  pollProjectStatus st projectId = st
  /\ pollProjectStatusWithNamePreservation st projectId = st.
Proof.
  intros Hin. unfold pollProjectStatus, pollProjectStatusWithNamePreservation,
    pollProjectStatusFrom, pollProjectStatusWithNamePreservationFrom.
  by rewrite bool_decide_eq_true_2.
Qed.

Lemma oneLoopEach_start st st' l :
  oneLoopEach st ->
  loopProject l ∉ polling st ->
  loops st' = loops st ++ [l] ->
  polling st' = {[loopProject l]} ∪ polling st ->
  oneLoopEach st'.
Proof.
  intros [Hnd Hin] Hfresh Hloops Hpolling. unfold oneLoopEach.
  rewrite Hloops, Hpolling, fmap_app. split.
  - apply NoDup_app. split_and!; [assumption | | apply NoDup_singleton].
    intros x Hx Hx'. apply list_elem_of_singleton in Hx'. subst x.
    apply list_elem_of_fmap in Hx as (l' & Heq & Hl').
    apply Hfresh. rewrite Heq. by apply Hin.
  - intros l' [Hl' | Hl']%elem_of_app.
    + apply elem_of_union_r. by apply Hin.
    + apply list_elem_of_singleton in Hl'. subst l'.
      apply elem_of_union_l. by apply elem_of_singleton.
Qed.

Lemma oneLoopEach_end st st' i l :
  oneLoopEach st ->
  loops st !! i = Some l ->
  loops st' = delete i (loops st) ->
  polling st' = polling st ∖ {[loopProject l]} ->
  oneLoopEach st'.
Proof.
  intros [Hnd Hin] Hi Hloops Hpolling. unfold oneLoopEach.
  rewrite Hloops, Hpolling. split.
  - rewrite list_fmap_delete. apply (sublist_NoDup _ _ Hnd), sublist_delete.
  - intros l' Hl'. apply elem_of_difference. split.
    + apply Hin. eapply elem_of_sublist; [exact Hl' | apply sublist_delete].
    + rewrite elem_of_singleton. intros Hsame.
      apply list_elem_of_lookup in Hl' as [j Hj].
      assert (Hj' : exists j', j' <> i /\ loops st !! j' = Some l').
      { destruct (decide (j < i)%nat).
        - exists j. split; [lia |].
          rewrite <- (list_lookup_delete_lt _ i) by lia. assumption.
        - exists (S j). split; [lia |].
          rewrite <- (list_lookup_delete_ge _ i) by lia. assumption. }
      destruct Hj' as (j' & Hne & Hj').
      apply Hne. eapply (proj1 (NoDup_alt _) Hnd j' i (loopProject l));
        rewrite list_lookup_fmap.
      * rewrite Hj'. simpl. by rewrite Hsame.
      * by rewrite Hi.
Qed.

Lemma pollCatch_frame projectId e st :
  loops (pollCatch projectId e st) = loops st
  /\ polling (pollCatch projectId e st) = polling st ∖ {[projectId]}.
Proof. unfold pollCatch. by destruct (Api.connectionProblem e). Qed.

Lemma pollTail_frame projectId status st0 st :
  loops st0 = loops st -> polling st0 = polling st ->
  loops (pollTail projectId status st0).1 = loops st
  /\ polling (pollTail projectId status st0).1
     = if (pollTail projectId status st0).2 then polling st
       else polling st ∖ {[projectId]}.
Proof.
  intros Hl Hp. unfold pollTail.
  destruct (isTerminal status); simpl; rewrite Hl, Hp; by split.
Qed.

Lemma poll_frame st projectId response now :
  loops (poll st projectId response now).1 = loops st
  /\ polling (poll st projectId response now).1
     = if (poll st projectId response now).2 then polling st
       else polling st ∖ {[projectId]}.
Proof.
  unfold poll. destruct response as [status | e];
    [| apply pollCatch_frame].
  destruct (getProject (store st) projectId).
  - destruct (usesReportedName (prop "project_name" status) projectId);
      [by apply pollTail_frame | apply pollCatch_frame].
  - destruct (selectedProject _); by apply pollTail_frame.
Qed.

Lemma pollNamed_frame st projectId customNames response now :
  loops (pollNamed st projectId customNames response now).1 = loops st
  /\ polling (pollNamed st projectId customNames response now).1
     = if (pollNamed st projectId customNames response now).2 then polling st
       else polling st ∖ {[projectId]}.
Proof.
  unfold pollNamed. destruct response as [status | e];
    [| apply pollCatch_frame].
  destruct (member customNames projectId); [| apply pollCatch_frame].
  destruct (getProject (store st) projectId).
  - by apply pollTail_frame.
  - destruct (selectedProject _); by apply pollTail_frame.
Qed.

Lemma pollFires_oneLoopEach st i response now :
  oneLoopEach st -> oneLoopEach (pollFires st i response now).
Proof.
  intros Hinv. unfold pollFires.
  destruct (loops st !! i) as [l |] eqn:Hi; [| assumption].
  assert (Hframe : forall out : State * bool,
    loops out.1 = loops st ->
    polling out.1 = (if out.2 then polling st
                     else polling st ∖ {[loopProject l]}) ->
    oneLoopEach (let (st1, again) := out in
                 if again then st1 else setLoops (delete i (loops st1)) st1)).
  { intros [st1 [|]] Hl Hp; simpl in *.
    - by apply (oneLoopEach_same st).
    - apply (oneLoopEach_end st _ i l); simpl; congruence. }
  destruct l as [projectId | projectId customNames]; apply Hframe.
  - apply poll_frame.
  - apply (poll_frame st projectId response now).
  - apply pollNamed_frame.
  - apply (pollNamed_frame st projectId customNames response now).
Qed.

Lemma pollProjectStatus_oneLoopEach st projectId :
  oneLoopEach st ->
  oneLoopEach (pollProjectStatus st projectId)
  /\ oneLoopEach (pollProjectStatusWithNamePreservation st projectId).
Proof.
  intros Hinv.
  unfold pollProjectStatus, pollProjectStatusWithNamePreservation,
    pollProjectStatusFrom, pollProjectStatusWithNamePreservationFrom.
  case_bool_decide as Hin; [by split |].
  split.
  - by apply (oneLoopEach_start st _ (Plain projectId)).
  - by eapply (oneLoopEach_start st _ (NamePreserving projectId _)).
Qed.

Lemma updateProjectSafely_frame st projectId newData now :
  loops (updateProjectSafely st projectId newData now) = loops st
  /\ polling (updateProjectSafely st projectId newData now) = polling st.
Proof.
  unfold updateProjectSafely. by destruct (getProject (store st) projectId).
Qed.

Lemma handleRegenerateProject_current st projectId response now :
  handleRegenerateProject (polling st) st projectId response now
  = match response with
    | Resolved _ =>
        setNotice (Some RegenerationStarted)
          (pollProjectStatus
             (updateProjectSafely (setNotice None st) projectId
                regeneratedFields now) projectId)
    | Rejected _ => setNotice (Some RegenerationError) (setNotice None st)
    end.
Proof.
  unfold handleRegenerateProject, pollProjectStatus.
  destruct response; [| reflexivity].
  by rewrite (proj2 (updateProjectSafely_frame _ _ _ _)).
Qed.

Lemma step_oneLoopEach st e :
  ~ acceptedStop e -> oneLoopEach st -> oneLoopEach (step st e).
Proof.
  intros Hstop Hinv.
  destruct e as [projectId | projectId | i response now
                | projectId response now | projectId response now
                | projectId modification_id mode now | projectId | now];
    cbn [step].
  - by apply pollProjectStatus_oneLoopEach.
  - by apply pollProjectStatus_oneLoopEach.
  - by apply pollFires_oneLoopEach.
  - destruct response; [by destruct Hstop |].
    by apply (oneLoopEach_same st).
  - rewrite handleRegenerateProject_current. destruct response.
    + apply (oneLoopEach_same
               (pollProjectStatus
                  (updateProjectSafely (setNotice None st) projectId
                     regeneratedFields now) projectId));
        [reflexivity | reflexivity |].
      apply pollProjectStatus_oneLoopEach.
      apply (oneLoopEach_same (setNotice None st));
        [apply updateProjectSafely_frame | apply updateProjectSafely_frame |].
      by apply (oneLoopEach_same st).
    + by apply (oneLoopEach_same st).
  - unfold handleModifyProject.
    match goal with
    | |- oneLoopEach (setNotice _ ?st1) =>
        apply (oneLoopEach_same st1); [reflexivity | reflexivity |]
    end.
    apply pollProjectStatus_oneLoopEach. by apply (oneLoopEach_same st).
  - unfold handleDeleteProject. apply (oneLoopEach_same st); [| | assumption].
    + destruct (selectedProject _) as [p |]; [destruct (hasId _ p) |];
        reflexivity.
    + destruct (selectedProject _) as [p |]; [destruct (hasId _ p) |];
        reflexivity.
  - unfold handleForceCleanup.
    destruct (forceCleanup (store st) now). by apply (oneLoopEach_same st).
Qed.

(** As long as no stop request is accepted, no project ever has two live
    loops. *)
Lemma run_oneLoopEach es : forall st,
  Forall (fun e => ~ acceptedStop e) es ->
  oneLoopEach st -> oneLoopEach (run st es).
Proof.
  induction es as [| e es IH]; intros st Hes Hinv; [assumption |].
  apply Forall_cons in Hes as [He Hes]. simpl.
  apply IH; [assumption |]. by apply step_oneLoopEach.
Qed.

Lemma oneLoopEach_loopsOf st projectId :
  oneLoopEach st -> (length (loopsOf projectId st) <= 1)%nat.
Proof.
  intros [Hnd _]. unfold loopsOf.
  induction (loops st) as [| l ls IH]; simpl; [lia |].
  apply NoDup_cons in Hnd as [Hl Hnd]. specialize (IH Hnd).
  destruct (String.eqb_spec (loopProject l) projectId) as [Heq | Hne];
    [| assumption].
  simpl. destruct (List.filter _ ls) as [| l' ls'] eqn:Hf; simpl; [lia |].
  exfalso. apply Hl.
  assert (Hin : In l' (List.filter
                         (fun l0 => String.eqb (loopProject l0) projectId) ls))
    by (rewrite Hf; by left).
  apply filter_In in Hin as [Hin Hid]. apply String.eqb_eq in Hid.
  apply list_elem_of_fmap. exists l'. split; [congruence |].
  by apply list_elem_of_In.
Qed.

End PollingLoops.

Section PollingLoopExamples.
Import RobustStorage HomePage Examples.
#[local] Existing Instance IsoDate.isoDate.

(** C3.  The monitor of project [p1] is started, the user stops the
    generation, then regenerates the project before the first loop has
    seen a terminal status: the stop took [p1] out of [polling] but left
    its loop alive, so the guard lets a second loop start. *)
Theorem stop_then_regenerate_two_loops :
  let stopped :=
    run page [StartPolling "p1"; StopGeneration "p1" accepted noon] in
  let regenerated := step stopped (Regenerate "p1" accepted noon) in
  loopsOf "p1" stopped = [Plain "p1"]
  /\ bool_decide ("p1" ∈ polling stopped) = false
  /\ loopsOf "p1" regenerated = [Plain "p1"; Plain "p1"]
  /\ ~ oneLoopEach regenerated.
Proof.
  cbv zeta.
  assert (Hloops :
    loopsOf "p1"
      (step (run page [StartPolling "p1"; StopGeneration "p1" accepted noon])
         (Regenerate "p1" accepted noon))
    = [Plain "p1"; Plain "p1"]) by (vm_compute; reflexivity).
  split_and!; [vm_compute; reflexivity | vm_compute; reflexivity
              | exact Hloops |].
  intros Hinv. apply (oneLoopEach_loopsOf _ "p1") in Hinv.
  rewrite Hloops in Hinv. simpl in Hinv. lia.
Qed.

End PollingLoopExamples.

(** ** The list of active projects in [localStorage] *)

Section ActiveProjects.
Import RobustStorage.

Lemma includes_strings ids projectId :
  includes (JStr <$> ids) projectId = true <-> projectId ∈ ids.
Proof.
  unfold includes. rewrite existsb_exists. split.
  - intros (v & Hin & Heq). apply list_elem_of_In in Hin.
    apply list_elem_of_fmap in Hin as (s & -> & Hs).
    simpl in Heq. apply String.eqb_eq in Heq. by subst.
  - intros Hin. exists (JStr projectId). split.
    + apply list_elem_of_In, list_elem_of_fmap. eauto.
    + simpl. apply String.eqb_refl.
Qed.

Lemma roundTrip_strings ids :
  roundTrip (JArr (JStr <$> ids)) = JArr (JStr <$> ids).
Proof.
  cbn [roundTrip]. f_equal.
  induction ids as [| s ids IH]; [reflexivity |].
  rewrite fmap_cons. cbn [map roundTrip]. by f_equal.
Qed.

(** Tracking never adds an id twice to the stored list. *)
Lemma trackActiveProject_NoDup st projectId ids st' :
  LocalStorage.getItem ACTIVE_PROJECTS_KEY (localStorage st)
    = Some (JArr (JStr <$> ids)) ->
  NoDup ids ->
  trackActiveProject st projectId = (st', true) ->
  exists ids',
    LocalStorage.getItem ACTIVE_PROJECTS_KEY (localStorage st')
      = Some (JArr (JStr <$> ids'))
    /\ NoDup ids' /\ projectId ∈ ids'.
Proof.
  intros Hstored Hnd. unfold trackActiveProject.
  destruct (isStorageAvailable st); simpl; [| discriminate].
  rewrite Hstored. simpl.
  destruct (includes (JStr <$> ids) projectId) eqn:Hinc.
  - intros [= <-]. exists ids. split_and!; try assumption.
    by apply includes_strings.
  - destruct (LocalStorage.setItem _ _ _) as [ls |] eqn:Hset; [| discriminate].
    intros [= <-]. apply setItem_Ok in Hset as [_ ->].
    exists (ids ++ [projectId]). split_and!.
    + cbn [localStorage setLocalStorage]. rewrite getItem_written.
      change ((JStr <$> ids) ++ [JStr projectId])
        with ((JStr <$> ids) ++ (JStr <$> [projectId])).
      by rewrite <- fmap_app, roundTrip_strings.
    + apply NoDup_app. split_and!; [assumption | | apply NoDup_singleton].
      intros x Hx Hx'. apply list_elem_of_singleton in Hx'. subst x.
      apply includes_strings in Hx. congruence.
    + apply elem_of_app. right. by apply list_elem_of_singleton.
Qed.

(** What [getActiveProjects] returns does not depend on what was
    tracked: it reads another key. *)
Lemma trackActiveProject_getActiveProjects st projectId :
  getActiveProjects (trackActiveProject st projectId).1
  = getActiveProjects st.
Proof.
  unfold trackActiveProject, getActiveProjects.
  destruct (isStorageAvailable st) eqn:Havail; simpl; [| by rewrite Havail].
  destruct (default (JArr []) _) as [| | | | s | l |]; simpl;
    rewrite ?Havail; try reflexivity.
  - by destruct (String.index 0 projectId s); simpl; rewrite Havail.
  - destruct (includes l projectId); simpl; [by rewrite Havail |].
    destruct (LocalStorage.setItem _ _ _) as [ls |] eqn:Hset; simpl;
      rewrite Havail; [| reflexivity].
    apply setItem_Ok in Hset as [_ ->]. by rewrite getItem_written_ne.
Qed.

(** C8.  On an empty origin, tracking [p1] returns [true] and stores the
    id under [ACTIVE_PROJECTS_KEY]; [getActiveProjects] reads the key
    [active_projects] and returns the empty list. *)
Theorem tracked_project_not_listed :
  let out := trackActiveProject (Examples.onStore [] Examples.roomy) "p1" in
  out.2 = true
  /\ LocalStorage.getItem ACTIVE_PROJECTS_KEY (localStorage out.1)
     = Some (JArr [JStr "p1"])
  /\ getActiveProjects out.1 = JArr [].
Proof. vm_compute. repeat split; reflexivity. Qed.

End ActiveProjects.

(** ** More on saving: what is left alone, saving again, removing *)

Section SavingMore.
Context `{DateImpl}.
Import RobustStorage.

(** X1.  A save that returns [false] has changed nothing: neither the list nor
    anything in storage. *)
Theorem saveProjects_failure_changes_nothing st l :
  (saveProjects st l).2 = false -> (saveProjects st l).1 = st.
Proof.
  destruct (saveProjects_cases st l) as [-> | [[_ ->] | (_ & _ & ->)]];
    cbn [fst snd]; [reflexivity | discriminate | discriminate].
Qed.

(** X2.  Whatever it does with the project list, [saveProjects] leaves every
    other entry of the origin (the active list, the custom names) and the
    availability flag as they were. *)
Theorem saveProjects_other_keys st l k :
  k <> STORAGE_KEY ->
  LocalStorage.getItem k (localStorage (saveProjects st l).1)
  = LocalStorage.getItem k (localStorage st)
  /\ isStorageAvailable (saveProjects st l).1 = isStorageAvailable st.
Proof.
  intros Hk.
  destruct (saveProjects_cases st l) as [-> | [[_ ->] | (_ & _ & ->)]];
    cbn [fst snd]; split; try reflexivity;
    cbn; by rewrite getItem_written_ne.
Qed.

Lemma stableSort_Sorted {A} (R : relation A) `{!RelDecision R} l :
  Sorted R l -> stableSort R l = l.
Proof.
  unfold stableSort. induction 1 as [| x l Hs IH Hhd]; simpl; [reflexivity |].
  rewrite IH. destruct Hhd as [| y l Hxy]; simpl; [reflexivity |].
  by rewrite decide_True.
Qed.

Lemma keptProjects_again l : keptProjects (keptProjects l) = keptProjects l.
Proof.
  pose proof (keptProjects_Sorted l) as Hs.
  pose proof (keptProjects_length l) as Hlen.
  pose proof (keptProjects_large l) as Hbig.
  unfold keptProjects at 1. unfold sortNewestFirst.
  rewrite (stableSort_Sorted _ _ Hs), (take_ge _ _ Hlen).
  case_match eqn:Hsize; [| reflexivity].
  apply take_ge, Hbig. by apply Z.ltb_lt.
Qed.

(** X3.  Saving again the list that a save left in [projects] is accepted and
    changes neither the list nor the storage. *)
Theorem saveProjects_again st l :
  savesNormally st l ->
  saveProjects (saveProjects st l).1 (projects (saveProjects st l).1)
  = ((saveProjects st l).1, true).
Proof.
  intros Hsave. rewrite (saveProjects_normal _ _ Hsave). cbn [fst].
  destruct Hsave as [Havail Hfit].
  rewrite saveProjects_normal.
  - unfold savedNormally, setProjects, setLocalStorage, LocalStorage.written.
    cbn [projects localStorage isStorageAvailable LocalStorage.items
         LocalStorage.quota].
    by rewrite keptProjects_again, insert_insert_eq.
  - split; [exact Havail |].
    unfold LocalStorage.fits, savedNormally, setProjects, setLocalStorage,
      LocalStorage.written in *.
    cbn [projects localStorage isStorageAvailable LocalStorage.items
         LocalStorage.quota].
    by rewrite keptProjects_again, insert_insert_eq.
Qed.

Lemma getProject_None st projectId :
  getProject st projectId = None <->
  forall p, p ∈ projects st -> hasId (JStr projectId) p = false.
Proof.
  unfold getProject. split.
  - intros Hnone p Hp. apply list_elem_of_In in Hp.
    exact (find_none _ _ Hnone p Hp).
  - intros Hall.
    destruct (List.find _ (projects st)) as [e |] eqn:Hfind; [| reflexivity].
    apply find_some in Hfind as [Hin Hid].
    apply list_elem_of_In, Hall in Hin. congruence.
Qed.

(** X4.  When the write of [removeProject] is accepted the id is gone from the
    list, and from a list of at most 100 projects exactly the projects with
    that id are taken out. *)
Theorem removeProject_removes st projectId :
  savesNormally st (withoutProject st projectId) ->
  (length (projects st) <= MAX_PROJECTS / 2)%nat ->
  getProject (removeProject st projectId) projectId = None
  /\ projects (removeProject st projectId)
     ≡ₚ List.filter (fun p => negb (hasId (JStr projectId) p)) (projects st).
Proof.
  intros Hsave Hlen.
  change (removeProject st projectId)
    with (saveProjects st (withoutProject st projectId)).1.
  rewrite (saveProjects_normal _ _ Hsave). cbn [fst]. split.
  - apply getProject_None. intros p Hp. cbn in Hp.
    apply keptProjects_elem in Hp. unfold withoutProject in Hp.
    apply list_elem_of_In, filter_In in Hp as [_ Hp].
    by apply negb_true_iff in Hp.
  - cbn. rewrite keptProjects_small.
    + apply sortNewestFirst_Permutation.
    + etrans; [apply List.filter_length_le | exact Hlen].
Qed.

End SavingMore.

(** ** Adding, importing and loading projects *)

Section AddImportLoad.
Context `{DateImpl}.
Import RobustStorage.

Lemma truthy_prop_lookup k (p : Obj) :
  truthy (prop k p) = true -> p !! k = Some (prop k p).
Proof. unfold prop. destruct (p !! k); simpl; [reflexivity | discriminate]. Qed.

Lemma hasRequiredFields_iff p :
  hasRequiredFields p = true <->
  truthy (prop "project_id" p) = true
  /\ truthy (prop "project_name" p) = true
  /\ truthy (prop "created_at" p) = true.
Proof. unfold hasRequiredFields. rewrite !andb_true_iff. tauto. Qed.

Lemma hasRequiredFields_mergeUpdate project now p :
  hasRequiredFields project = true ->
  hasRequiredFields (mergeUpdate project now p) = true.
Proof.
  rewrite !hasRequiredFields_iff. intros (Hid & Hname & Hcreated).
  rewrite !mergeUpdate_prop by discriminate.
  rewrite (truthy_prop_lookup _ _ Hid), (truthy_prop_lookup _ _ Hname),
    (truthy_prop_lookup _ _ Hcreated). tauto.
Qed.

Lemma normalizedProject_prop project now k :
  k <> "updated_at" -> k <> "created_at" -> k <> "status" ->
  normalizedProject project now !! k = project !! k.
Proof.
  intros. unfold normalizedProject. by rewrite !lookup_insert_ne.
Qed.

Lemma hasRequiredFields_normalizedProject project now :
  hasRequiredFields project = true ->
  hasRequiredFields (normalizedProject project now) = true.
Proof.
  rewrite !hasRequiredFields_iff. intros (Hid & Hname & Hcreated).
  unfold prop at 1 2 3.
  rewrite !normalizedProject_prop by discriminate.
  unfold normalizedProject.
  rewrite lookup_insert_ne, lookup_insert_eq by discriminate.
  fold (prop "project_id" project). fold (prop "project_name" project). tauto.
Qed.

Lemma addProject_rejects st project now :
  hasRequiredFields project = false ->
  addProject st project now = (st, Some false).
Proof.
  unfold hasRequiredFields, addProject. intros Hbad.
  destruct (truthy (prop "project_id" project)),
    (truthy (prop "project_name" project)),
    (truthy (prop "created_at" project)); try discriminate; reflexivity.
Qed.

(** How [addProject] goes on for a project with the three required
    fields. *)
Lemma addProject_accepts st project now :
  hasRequiredFields project = true ->
  addProject st project now =
  match List.find (hasId (prop "project_id" project)) (projects st) with
  | Some _ =>
      (updateProjectById st (prop "project_id" project) project now, None)
  | None =>
      let (st1, saveResult) :=
        saveProjects st (normalizedProject project now :: projects st) in
      if saveResult then
        match LocalStorage.getItem STORAGE_KEY (localStorage st1) with
        | Some (JArr parsed) =>
            if existsb (fun v => match v with
                                 | JObj p => hasId (prop "project_id" project) p
                                 | _ => false
                                 end) parsed
            then (st1, Some true)
            else
              match LocalStorage.setItem STORAGE_KEY
                      (projectsJson
                         (normalizedProject project now :: projects st))
                      (localStorage st1) with
              | Ok ls => (setLocalStorage ls st1, Some true)
              | Throw _ => (st1, Some true)
              end
        | _ => (st1, Some true)
        end
      else (st1, Some false)
  end.
Proof.
  intros (Hid & Hname & Hcreated)%hasRequiredFields_iff.
  unfold addProject. rewrite Hid, Hname, Hcreated. reflexivity.
Qed.

Lemma addProject_projects st project now :
  hasRequiredFields project = true ->
  List.find (hasId (prop "project_id" project)) (projects st) = None ->
  projects (addProject st project now).1
  = projects (saveProjects st (normalizedProject project now :: projects st)).1
  /\ (addProject st project now).2
     = Some (saveProjects st (normalizedProject project now :: projects st)).2.
Proof.
  intros Hok Hfresh. rewrite (addProject_accepts _ _ _ Hok), Hfresh.
  destruct (saveProjects st _) as [st1 [|]]; cbn [fst snd]; [| by split].
  destruct (LocalStorage.getItem STORAGE_KEY (localStorage st1))
    as [[| | | | | parsed |] |]; try by split.
  destruct (existsb _ parsed); [by split |].
  destruct (LocalStorage.setItem _ _ _); by split.
Qed.

(** X5.  [addProject] keeps the list free of projects without an id, a name or
    a creation date. *)
Theorem addProject_keeps_required_fields st project now :
  Forall (fun p => hasRequiredFields p = true) (projects st) ->
  Forall (fun p => hasRequiredFields p = true)
    (projects (addProject st project now).1).
Proof.
  intros Hall. destruct (hasRequiredFields project) eqn:Hok;
    [| by rewrite addProject_rejects].
  destruct (List.find (hasId (prop "project_id" project)) (projects st))
    as [e |] eqn:Hfind.
  - rewrite (addProject_accepts _ _ _ Hok), Hfind. cbn [fst].
    unfold updateProjectById.
    destruct (saveProjects_projects st
                (updatedProjects st (prop "project_id" project) project now))
      as [-> | Hsub]; [assumption |].
    apply Forall_forall. intros q Hq.
    apply Hsub, elem_of_updatedProjects in Hq as (p & Hp & ->).
    destruct (hasId _ p); [by apply hasRequiredFields_mergeUpdate |].
    by eapply Forall_forall in Hall.
  - destruct (addProject_projects _ _ now Hok Hfind) as [-> _].
    destruct (saveProjects_projects st
                (normalizedProject project now :: projects st))
      as [-> | Hsub]; [assumption |].
    apply Forall_forall. intros q Hq. apply Hsub in Hq.
    apply elem_of_cons in Hq as [-> | Hq];
      [by apply hasRequiredFields_normalizedProject |].
    by eapply Forall_forall in Hall.
Qed.

Lemma roundTrip_obj (p : Obj) : roundTrip (JObj p) = JObj (roundTripObj p).
Proof. reflexivity. Qed.

Lemma map_roundTrip_objs (l : list Obj) :
  map roundTrip (JObj <$> l) = JObj <$> (roundTripObj <$> l).
Proof.
  induction l as [| p l IH]; [reflexivity |].
  change (roundTrip (JObj p) :: map roundTrip (JObj <$> l)
          = JObj (roundTripObj p) :: (JObj <$> (roundTripObj <$> l))).
  by rewrite IH.
Qed.

Lemma roundTrip_projectsJson l :
  roundTrip (projectsJson l) = projectsJson (roundTripObj <$> l).
Proof.
  unfold projectsJson.
  change (JArr (map roundTrip (JObj <$> l))
          = JArr (JObj <$> (roundTripObj <$> l))).
  by rewrite map_roundTrip_objs.
Qed.

Lemma roundTripObj_lookup (p : Obj) k :
  roundTripObj p !! k =
  match p !! k with
  | Some JUndef | None => None
  | Some v => Some (roundTrip v)
  end.
Proof.
  unfold roundTripObj. rewrite lookup_omap.
  by destruct (p !! k) as [[] |].
Qed.

Lemma roundTripObj_truthy (p : Obj) k :
  truthy (prop k (roundTripObj p)) = truthy (prop k p).
Proof.
  unfold prop. rewrite roundTripObj_lookup.
  by destruct (p !! k) as [[] |].
Qed.

Lemma roundTripObj_hasId (p : Obj) s :
  hasId (JStr s) (roundTripObj p) = hasId (JStr s) p.
Proof.
  unfold hasId, prop. rewrite roundTripObj_lookup.
  by destruct (p !! "project_id") as [[] |].
Qed.

Lemma hasRequiredFields_roundTripObj p :
  hasRequiredFields (roundTripObj p) = hasRequiredFields p.
Proof. unfold hasRequiredFields. by rewrite !roundTripObj_truthy. Qed.

(** X6.  A new, well-formed project added to a list of fewer than 100
    projects, the write being accepted: [addProject] returns [true], the
    project found under the id is the given one with its status defaulting to
    [created] and [updated_at] to the time of the call, every earlier project
    is still there, and storage holds the new list. *)
Theorem addProject_adds_new st project now projectId :
  prop "project_id" project = JStr projectId ->
  hasRequiredFields project = true ->
  getProject st projectId = None ->
  savesNormally st (normalizedProject project now :: projects st) ->
  (length (projects st) < MAX_PROJECTS / 2)%nat ->
  (addProject st project now).2 = Some true
  /\ getProject (addProject st project now).1 projectId
     = Some (normalizedProject project now)
  /\ prop "status" (normalizedProject project now)
     = or_else (prop "status" project) (JStr "created")
  /\ (forall q, q ∈ projects st -> q ∈ projects (addProject st project now).1)
  /\ persisted (addProject st project now).1
     = Some (roundTrip (projectsJson (projects (addProject st project now).1))).
Proof.
  intros Hid Hok Hfresh Hsave Hlen.
  assert (Hfind : List.find (hasId (prop "project_id" project)) (projects st)
                  = None) by (rewrite Hid; exact Hfresh).
  assert (Hkept : keptProjects (normalizedProject project now :: projects st)
                  = sortNewestFirst
                      (normalizedProject project now :: projects st)).
  { apply keptProjects_small. simpl. rewrite MAX_PROJECTS_half in *. lia. }
  assert (Hnid : hasId (JStr projectId) (normalizedProject project now) = true).
  { unfold hasId, prop. rewrite normalizedProject_prop by discriminate.
    fold (prop "project_id" project). rewrite Hid. simpl.
    apply String.eqb_refl. }
  assert (Hin : normalizedProject project now
                ∈ keptProjects (normalizedProject project now :: projects st)).
  { rewrite Hkept, sortNewestFirst_Permutation. apply elem_of_cons. by left. }
  assert (Hadd : addProject st project now
                 = (savedNormally st
                      (normalizedProject project now :: projects st),
                    Some true)).
  { rewrite (addProject_accepts _ _ _ Hok), Hfind.
    rewrite (saveProjects_normal _ _ Hsave).
    unfold savedNormally at 1. cbn [localStorage setProjects setLocalStorage].
    rewrite getItem_written, roundTrip_projectsJson. unfold projectsJson at 1.
    assert (Hex : existsb
              (fun v => match v with
                        | JObj p => hasId (prop "project_id" project) p
                        | _ => false
                        end)
              (JObj <$> (roundTripObj <$>
                 keptProjects (normalizedProject project now :: projects st)))
              = true).
    { apply existsb_exists.
      exists (JObj (roundTripObj (normalizedProject project now))). split.
      - apply list_elem_of_In, list_elem_of_fmap. eexists. split; [reflexivity |].
        apply list_elem_of_fmap. eauto.
      - by rewrite Hid, roundTripObj_hasId. }
    by rewrite Hex. }
  rewrite Hadd. cbn [fst snd]. split_and!.
  - reflexivity.
  - destruct (getProject_is_Some
                (savedNormally st (normalizedProject project now :: projects st))
                projectId _ Hin Hnid) as [e He].
    rewrite He. f_equal.
    apply getProject_Some in He as [He Heid]. cbn in He.
    apply keptProjects_elem, elem_of_cons in He as [-> | He]; [reflexivity |].
    pose proof (proj1 (getProject_None st projectId) Hfresh e He). congruence.
  - unfold prop at 1, normalizedProject.
    by rewrite lookup_insert_ne, lookup_insert_ne, lookup_insert_eq.
  - intros q Hq. cbn. rewrite Hkept, sortNewestFirst_Permutation.
    apply elem_of_cons. by right.
  - apply getItem_written.
Qed.

(** X7.  After an import every project in the list is one that was there
    before or one from the file whose id no stored project had. *)
Theorem importProjects_skips_known_ids st l :
  Forall (fun q =>
            q ∈ projects st
            \/ (q ∈ l /\ Forall (fun p => hasId (prop "project_id" q) p = false)
                           (projects st)))
    (projects (importProjects st (Some l)).1).
Proof.
  apply Forall_forall. intros q. unfold importProjects.
  match goal with
  | |- context [saveProjects st ?m] =>
      pose proof (saveProjects_projects st m) as Hsub;
      destruct (saveProjects st m) as [st1 ok]
  end.
  cbn [fst] in *. destruct Hsub as [-> | Hsub]; [by left |].
  intros Hq. apply Hsub, elem_of_app in Hq as [Hq | Hq]; [by left | right].
  apply list_elem_of_In, filter_In in Hq as [Hq Hnew].
  split; [by apply list_elem_of_In |].
  apply Forall_forall. intros p Hp. apply negb_true_iff in Hnew.
  destruct (hasId (prop "project_id" q) p) eqn:Hid; [| reflexivity].
  assert (existsb (hasId (prop "project_id" q)) (projects st) = true);
    [| congruence].
  apply existsb_exists. exists p. split; [by apply list_elem_of_In | assumption].
Qed.

(** The file written by [exportProjects] carries the list as
    [exportedProjects] reads it. *)
Lemma exportData_projects st exportDate :
  exists d, roundTrip (exportData st exportDate) = JObj d
            /\ prop "projects" d = projectsJson (exportedProjects st).
Proof.
  unfold exportData. rewrite roundTrip_obj. eexists. split; [reflexivity |].
  unfold prop. rewrite roundTripObj_lookup.
  rewrite lookup_insert_eq. unfold exportedProjects.
  by rewrite <- roundTrip_projectsJson.
Qed.

Lemma filter_none {A} (f : A -> bool) l :
  (forall x, x ∈ l -> f x = false) -> List.filter f l = [].
Proof.
  induction l as [| x l IH]; intros Hall; [reflexivity |].
  simpl. rewrite (Hall x) by (apply elem_of_cons; by left).
  apply IH. intros y Hy. apply Hall, elem_of_cons. by right.
Qed.

(** X8.  Importing the file that [exportProjects] wrote from the same list,
    all ids being strings, brings in no project: the count is 0 and the list
    is saved as it is. *)
Theorem import_of_export_adds_nothing st :
  Forall (fun p => exists s, prop "project_id" p = JStr s) (projects st) ->
  importProjects st (Some (exportedProjects st))
  = ((saveProjects st (projects st)).1,
     {| success := (saveProjects st (projects st)).2; count := Some 0%nat |}).
Proof.
  intros Hids. unfold importProjects.
  rewrite filter_none.
  - rewrite app_nil_r. by destruct (saveProjects st (projects st)) as [st1 []].
  - intros q (p & -> & Hp)%list_elem_of_fmap. apply negb_false_iff.
    apply existsb_exists. exists p. split; [by apply list_elem_of_In |].
    eapply Forall_forall in Hids as [s Hs]; [| exact Hp].
    assert (Hrt : prop "project_id" (roundTripObj p) = JStr s).
    { unfold prop in *. rewrite roundTripObj_lookup.
      destruct (p !! "project_id") as [v |]; simpl in Hs; by subst. }
    rewrite Hrt. unfold hasId. rewrite Hs. simpl. apply String.eqb_refl.
Qed.

(** X9.  Whatever JSON value storage holds under the key, every project that
    [loadProjects] puts in the list has an id, a name and a creation date. *)
Theorem loadProjects_required_fields st :
  Forall (fun p => hasRequiredFields p = true) (projects (loadProjects st)).
Proof.
  unfold loadProjects.
  destruct (checkStorageAvailability st) as [st1 []]; [| by constructor].
  destruct (LocalStorage.getItem STORAGE_KEY (localStorage st1))
    as [[| | | | | parsed |] |]; try by constructor.
  cbn [projects setProjects]. apply Forall_forall.
  intros p (v & Hv & Hp)%list_elem_of_omap.
  unfold validProject in Hp. destruct v; try discriminate.
  destruct (hasRequiredFields _) eqn:Hok; by simplify_eq.
Qed.

Lemma omap_validProject l :
  Forall (fun p => hasRequiredFields p = true) l ->
  omap validProject (JObj <$> l) = l.
Proof.
  induction 1 as [| p l Hp _ IH]; [reflexivity |].
  rewrite fmap_cons. cbn [omap list_omap]. unfold validProject at 1.
  rewrite Hp. fold (omap validProject (JObj <$> l)). by rewrite IH.
Qed.

(** X10.  Saving a list of well-formed projects and loading it again, with
    storage passing the availability check: the list that comes back is the
    saved one (newest first, cut to the size limit), each project as
    JSON.parse reads its JSON.stringify text. *)
Theorem save_then_load st l :
  savesNormally st l ->
  Forall (fun p => hasRequiredFields p = true) l ->
  (checkStorageAvailability (saveProjects st l).1).2 = true ->
  projects (loadProjects (saveProjects st l).1)
  = roundTripObj <$> keptProjects l.
Proof.
  intros Hsave Hall. rewrite (saveProjects_normal _ _ Hsave). cbn [fst].
  unfold loadProjects, checkStorageAvailability.
  destruct (LocalStorage.probe _ _ _) as [ls |] eqn:Hprobe;
    cbn [fst snd]; [intros _ | discriminate].
  unfold LocalStorage.probe in Hprobe.
  destruct (_ <=? _); [| discriminate]. injection Hprobe as <-.
  cbn [localStorage setLocalStorage setProjects].
  match goal with
  | |- context [LocalStorage.getItem STORAGE_KEY ?ls] =>
      assert (Hget : LocalStorage.getItem STORAGE_KEY ls
                     = Some (projectsJson (roundTripObj <$> keptProjects l)))
  end.
  { unfold LocalStorage.getItem, LocalStorage.removeItem,
      LocalStorage.written. cbn [LocalStorage.items].
    rewrite lookup_delete_ne by discriminate.
    by rewrite lookup_insert_eq, roundTrip_projectsJson. }
  rewrite Hget. unfold projectsJson. cbn [projects setProjects].
  apply omap_validProject, Forall_forall.
  intros q (p & -> & Hp)%list_elem_of_fmap.
  rewrite hasRequiredFields_roundTripObj.
  eapply Forall_forall in Hall; [exact Hall |]. by apply keptProjects_elem in Hp.
Qed.

End AddImportLoad.

(** ** Clearing, and the stored list of active projects *)

Section ClearAndActive.
Import RobustStorage.

(** X11.  After [clearAllProjects] nothing is stored under the key, and a load
    gives the empty list, whether or not storage passes its check. *)
Theorem clear_then_load st :
  persisted (clearAllProjects st).1 = None
  /\ projects (loadProjects (clearAllProjects st).1) = [].
Proof.
  unfold clearAllProjects, persisted. cbn [fst localStorage setProjects
    setLocalStorage]. split.
  - unfold LocalStorage.getItem, LocalStorage.removeItem.
    cbn [LocalStorage.items]. apply lookup_delete_eq.
  - unfold loadProjects, checkStorageAvailability, LocalStorage.probe.
    cbn [localStorage setProjects setLocalStorage].
    destruct (_ <=? _); [| reflexivity].
    cbn [negb localStorage].
    assert (Hget : forall ls,
              LocalStorage.getItem STORAGE_KEY
                (LocalStorage.removeItem "__storage_test__"
                   (LocalStorage.removeItem STORAGE_KEY ls)) = None).
    { intros ls. unfold LocalStorage.getItem, LocalStorage.removeItem.
      cbn [LocalStorage.items].
      rewrite lookup_delete_ne by discriminate. apply lookup_delete_eq. }
    by rewrite Hget.
Qed.

Lemma filter_strings ids projectId :
  List.filter (fun id => negb (strictEq id (JStr projectId))) (JStr <$> ids)
  = JStr <$> List.filter (fun s => negb (String.eqb s projectId)) ids.
Proof.
  induction ids as [| s ids IH]; [reflexivity |].
  rewrite fmap_cons. cbn [List.filter strictEq].
  destruct (String.eqb s projectId); cbn [negb]; by rewrite IH.
Qed.

Lemma filter_absent ids (projectId : string) :
  projectId ∉ ids ->
  List.filter (fun s => negb (String.eqb s projectId)) ids = ids.
Proof.
  induction ids as [| s ids IH]; [reflexivity |].
  intros [Hne Hnin]%not_elem_of_cons. cbn [List.filter].
  destruct (String.eqb_spec s projectId) as [-> | _]; [done |].
  cbn [negb]. by rewrite IH.
Qed.

(** X12.  An untracking that returns [true] leaves the stored list without the
    id, the other ids in the order they had. *)
Theorem untrackActiveProject_removes st projectId ids st' :
  LocalStorage.getItem ACTIVE_PROJECTS_KEY (localStorage st)
    = Some (JArr (JStr <$> ids)) ->
  untrackActiveProject st projectId = (st', true) ->
  LocalStorage.getItem ACTIVE_PROJECTS_KEY (localStorage st')
    = Some (JArr (JStr <$>
                    List.filter (fun s => negb (String.eqb s projectId)) ids))
  /\ projectId ∉ List.filter (fun s => negb (String.eqb s projectId)) ids.
Proof.
  intros Hstored. unfold untrackActiveProject.
  destruct (isStorageAvailable st); cbn [negb]; [| discriminate].
  rewrite Hstored, filter_strings.
  destruct (LocalStorage.setItem _ _ _) as [ls |] eqn:Hset; [| discriminate].
  intros [= <-]. apply setItem_Ok in Hset as [_ ->]. split.
  - cbn [localStorage setLocalStorage].
    by rewrite getItem_written, roundTrip_strings.
  - intros [_ Hne]%list_elem_of_In%filter_In.
    by rewrite String.eqb_refl in Hne.
Qed.

(** X13.  Tracking an id that is not in the stored list and untracking it
    again gives back the state there was, storage included. *)
Theorem track_then_untrack st projectId ids st1 st2 :
  LocalStorage.getItem ACTIVE_PROJECTS_KEY (localStorage st)
    = Some (JArr (JStr <$> ids)) ->
  projectId ∉ ids ->
  trackActiveProject st projectId = (st1, true) ->
  untrackActiveProject st1 projectId = (st2, true) ->
  st2 = st.
Proof.
  intros Hstored Hnin. unfold trackActiveProject.
  destruct (isStorageAvailable st) eqn:Havail; cbn [negb]; [| discriminate].
  rewrite Hstored. simpl.
  destruct (includes (JStr <$> ids) projectId) eqn:Hinc;
    [by apply includes_strings in Hinc |].
  destruct (LocalStorage.setItem _ _ _) as [ls |] eqn:Hset; [| discriminate].
  intros [= <-]. apply setItem_Ok in Hset as [_ ->].
  unfold untrackActiveProject.
  cbn [isStorageAvailable localStorage setLocalStorage].
  rewrite Havail, getItem_written. cbn [negb].
  change ((JStr <$> ids) ++ [JStr projectId])
    with ((JStr <$> ids) ++ (JStr <$> [projectId])).
  rewrite <- fmap_app, roundTrip_strings, filter_strings, List.filter_app.
  rewrite (filter_absent _ _ Hnin). cbn [List.filter].
  rewrite String.eqb_refl. cbn [negb]. rewrite app_nil_r.
  destruct (LocalStorage.setItem _ _ _) as [ls |] eqn:Hset; [| discriminate].
  intros [= <-]. apply setItem_Ok in Hset as [_ ->].
  destruct st as [ps avail [items quota]].
  unfold setLocalStorage, LocalStorage.written, LocalStorage.getItem in *.
  cbn [projects isStorageAvailable localStorage LocalStorage.items
       LocalStorage.quota] in *.
  rewrite insert_insert_eq, roundTrip_strings.
  by rewrite (insert_id _ _ _ Hstored).
Qed.

Lemma includes_app l1 l2 s :
  includes (l1 ++ l2) s = includes l1 s || includes l2 s.
Proof. unfold includes. apply existsb_app. Qed.

(** X14.  Tracking again an id whose tracking returned [true] returns [true]
    and changes nothing, whatever is stored under the key. *)
Theorem trackActiveProject_idempotent st projectId st' :
  trackActiveProject st projectId = (st', true) ->
  trackActiveProject st' projectId = (st', true).
Proof.
  unfold trackActiveProject at 1.
  destruct (isStorageAvailable st) eqn:Havail; cbn [negb]; [| discriminate].
  destruct (default (JArr []) _) as [| | | | s | l |] eqn:Hstored;
    try discriminate.
  - destruct (String.index 0 projectId s) eqn:Hindex; [| discriminate].
    intros [= <-]. unfold trackActiveProject.
    by rewrite Havail, Hstored, Hindex.
  - destruct (includes l projectId) eqn:Hinc.
    + intros [= <-]. unfold trackActiveProject.
      by rewrite Havail, Hstored, Hinc.
    + destruct (LocalStorage.setItem _ _ _) as [ls |] eqn:Hset;
        [| discriminate].
      intros [= <-]. apply setItem_Ok in Hset as [_ ->].
      unfold trackActiveProject.
      cbn [isStorageAvailable localStorage setLocalStorage].
      assert (Hrt : roundTrip (JArr (l ++ [JStr projectId]))
                    = JArr (map roundTrip l ++ [JStr projectId])).
      { change (JArr (map roundTrip (l ++ [JStr projectId])) = 
                JArr (map roundTrip l ++ [JStr projectId])).
        by rewrite map_app. }
      assert (Hinc' : includes (map roundTrip l ++ [JStr projectId]) projectId
                      = true).
      { rewrite includes_app. unfold includes at 2. simpl.
        rewrite String.eqb_refl. apply orb_true_r. }
      rewrite Havail, getItem_written, Hrt. cbn [negb from_option id].
      by rewrite Hinc'.
Qed.

(** X15.  Neither tracking nor untracking changes what [getActiveProjects]
    returns: both write a key that it does not read. *)
Theorem getActiveProjects_ignores_tracking st projectId :
  getActiveProjects (trackActiveProject st projectId).1 = getActiveProjects st
  /\ getActiveProjects (untrackActiveProject st projectId).1
     = getActiveProjects st.
Proof.
  split; [apply trackActiveProject_getActiveProjects |].
  unfold untrackActiveProject, getActiveProjects.
  destruct (isStorageAvailable st) eqn:Havail; cbn [negb fst];
    [| by rewrite Havail].
  destruct (LocalStorage.getItem ACTIVE_PROJECTS_KEY (localStorage st))
    as [[| | | | | l |] |]; cbn [fst]; rewrite ?Havail; try reflexivity.
  destruct (LocalStorage.setItem _ _ _) as [ls |] eqn:Hset; cbn [fst];
    [| by rewrite Havail].
  apply setItem_Ok in Hset as [_ ->].
  cbn [isStorageAvailable localStorage setLocalStorage]. rewrite Havail.
  cbn [negb]. by rewrite getItem_written_ne.
Qed.

End ClearAndActive.

(** ** The panel and the page *)

Section PanelAndPage.
Context `{DateImpl}.
Import RobustStorage ProjectDetails HomePage.

(** X16.  The colour of the status chip tells which control the header offers:
    [warning] exactly while the project counts as generating (the stop
    control), [error] exactly when retry is offered, [success] exactly when
    the downloads are; so no two of the three are offered together, and the
    modify button is never offered with the stop control. *)
Theorem status_colour_controls project :
  (getStatusColor (prop "status" project) = "warning"
   <-> isGenerating project = true)
  /\ (getStatusColor (prop "status" project) = "error"
      <-> retryOffered project = true)
  /\ (getStatusColor (prop "status" project) = "success"
      <-> downloadOffered project = true)
  /\ (forall onModify onStop,
        modifyOffered onModify project
        && stopControlRendered onStop project = false).
Proof.
  unfold getStatusColor, isGenerating, retryOffered, downloadOffered,
    modifyOffered, stopControlRendered, canModify, isGenerating.
  cbn [existsb].
  destruct (prop "status" project) as [| | | | s | |];
    cbn [strictEq orb andb negb];
    try (split_and!; try (split; discriminate); by intros [] []).
  destruct (String.eqb_spec s "completed") as [-> |];
    [split_and!; try (split; (discriminate || reflexivity)); by intros [] [] |].
  destruct (String.eqb_spec s "processing") as [-> |];
    [split_and!; try (split; (discriminate || reflexivity)); by intros [] [] |].
  destruct (String.eqb_spec s "generating_code") as [-> |];
    [split_and!; try (split; (discriminate || reflexivity)); by intros [] [] |].
  destruct (String.eqb_spec s "generating_tests") as [-> |];
    [split_and!; try (split; (discriminate || reflexivity)); by intros [] [] |].
  destruct (String.eqb_spec s "running_tests") as [-> |];
    [split_and!; try (split; (discriminate || reflexivity)); by intros [] [] |].
  cbn [orb andb negb].
  destruct (String.eqb_spec s "failed") as [-> |];
    [split_and!; try (split; (discriminate || reflexivity)); by intros [] [] |].
  destruct (String.eqb_spec s "error") as [-> |];
    [split_and!; try (split; (discriminate || reflexivity)); by intros [] [] |].
  cbn [orb andb negb].
  split_and!; try (split; discriminate).
  intros onModify onStop. apply andb_false_r.
Qed.

Lemma status_after_safe_update st projectId fields now e v :
  getProject (store st) projectId = Some e ->
  savesNormally (store st)
    (updatedProjects (store st) (JStr projectId) (safeUpdate e fields) now) ->
  (length (projects (store st)) <= MAX_PROJECTS / 2)%nat ->
  fields !! "project_id" = None ->
  fields !! "status" = Some v ->
  exists e',
    getProject (store (updateProjectSafely st projectId fields now)) projectId
      = Some e'
    /\ prop "status" e' = v.
Proof.
  intros He Hsave Hlen Hid Hstatus.
  rewrite store_updateProjectSafely, He.
  destruct (getProject_Some _ _ _ He) as [Hin Hhas].
  assert (Hsid : safeUpdate e fields !! "project_id" = None).
  { rewrite safeUpdate_lookup. by rewrite decide_False by discriminate. }
  destruct (present_after_saved_update _ _ _ _ _ Hsave Hlen Hsid Hin Hhas)
    as [e' He'].
  exists e'. split; [exact He' |].
  apply (found_after_saved_update _ _ _ _ _ Hsave) in He' as (p & _ & _ & ->).
  rewrite mergeUpdate_prop by discriminate.
  rewrite safeUpdate_lookup, decide_False by discriminate. by rewrite Hstatus.
Qed.

Lemma store_pollProjectStatus st projectId :
  store (pollProjectStatus st projectId) = store st.
Proof. apply store_pollProjectStatusFrom. Qed.

(** X17.   After a stop that the backend accepted, the project stored under
    the id is one for which the panel no longer offers the stop control: it
    offers retry and modify, and no download. *)
Theorem stop_offers_retry st projectId response now e onStop :
  getProject (store st) projectId = Some e ->
  savesNormally (store st)
    (updatedProjects (store st) (JStr projectId)
       (safeUpdate e (stoppedFields now)) now) ->
  (length (projects (store st)) <= MAX_PROJECTS / 2)%nat ->
  exists e',
    getProject
      (store (handleStopGeneration st projectId (Resolved response) now))
      projectId = Some e'
    /\ stopControlRendered onStop e' = false
    /\ retryOffered e' = true
    /\ downloadOffered e' = false
    /\ modifyOffered true e' = true.
Proof.
  intros He Hsave Hlen.
  destruct (status_after_safe_update st projectId (stoppedFields now) now e
              (JStr "failed") He Hsave Hlen eq_refl eq_refl)
    as (e' & He' & Hstatus).
  exists e'. split; [exact He' |].
  unfold stopControlRendered, retryOffered, downloadOffered, modifyOffered,
    canModify, isGenerating.
  rewrite Hstatus. by split_and!.
Qed.

Lemma polledHaveLoops_same st st' :
  loops st' = loops st -> polling st' ⊆ polling st ->
  polledHaveLoops st -> polledHaveLoops st'.
Proof.
  intros Hl Hp Hinv projectId Hin. rewrite Hl. apply Hinv, Hp, Hin.
Qed.

Lemma polledHaveLoops_start st st' l :
  polledHaveLoops st ->
  loops st' = loops st ++ [l] ->
  polling st' = {[loopProject l]} ∪ polling st ->
  polledHaveLoops st'.
Proof.
  intros Hinv Hl Hp projectId Hin. rewrite Hl. rewrite Hp in Hin.
  apply elem_of_union in Hin as [->%elem_of_singleton | Hin].
  - exists l. split; [| reflexivity].
    apply elem_of_app. right. by apply list_elem_of_singleton.
  - destruct (Hinv _ Hin) as (l' & Hl' & Heq). exists l'.
    split; [| exact Heq]. apply elem_of_app. by left.
Qed.

Lemma polledHaveLoops_end st st' i l :
  polledHaveLoops st ->
  loops st !! i = Some l ->
  loops st' = delete i (loops st) ->
  polling st' = polling st ∖ {[loopProject l]} ->
  polledHaveLoops st'.
Proof.
  intros Hinv Hi Hl Hp projectId Hin. rewrite Hl. rewrite Hp in Hin.
  apply elem_of_difference in Hin as [Hin Hne].
  destruct (Hinv _ Hin) as (l' & Hl' & Heq). exists l'.
  split; [| exact Heq].
  apply list_elem_of_lookup in Hl' as [j Hj].
  assert (Hji : j <> i).
  { intros ->. rewrite Hi in Hj. injection Hj as <-.
    apply Hne, elem_of_singleton. by symmetry. }
  apply list_elem_of_lookup.
  destruct (Nat.lt_ge_cases j i).
  - exists j. by rewrite list_lookup_delete_lt.
  - exists (pred j). rewrite list_lookup_delete_ge by lia.
    replace (S (pred j)) with j by lia. exact Hj.
Qed.

Lemma pollFires_polledHaveLoops st i response now :
  polledHaveLoops st -> polledHaveLoops (pollFires st i response now).
Proof.
  intros Hinv. unfold pollFires.
  destruct (loops st !! i) as [l |] eqn:Hi; [| assumption].
  assert (Hframe : forall out : State * bool,
    loops out.1 = loops st ->
    polling out.1 = (if out.2 then polling st
                     else polling st ∖ {[loopProject l]}) ->
    polledHaveLoops
      (let (st1, again) := out in
       if again then st1 else setLoops (delete i (loops st1)) st1)).
  { intros [st1 [|]] Hl Hp; simpl in *.
    - apply (polledHaveLoops_same st); [assumption | by rewrite Hp | assumption].
    - apply (polledHaveLoops_end st _ i l Hinv Hi); simpl; congruence. }
  destruct l as [projectId | projectId customNames]; apply Hframe.
  - apply poll_frame.
  - apply (poll_frame st projectId response now).
  - apply pollNamed_frame.
  - apply (pollNamed_frame st projectId customNames response now).
Qed.

Lemma pollProjectStatus_polledHaveLoops st projectId :
  polledHaveLoops st ->
  polledHaveLoops (pollProjectStatus st projectId)
  /\ polledHaveLoops (pollProjectStatusWithNamePreservation st projectId).
Proof.
  intros Hinv.
  unfold pollProjectStatus, pollProjectStatusWithNamePreservation,
    pollProjectStatusFrom, pollProjectStatusWithNamePreservationFrom.
  case_bool_decide as Hin; [by split |].
  split.
  - by apply (polledHaveLoops_start st _ (Plain projectId)).
  - by eapply (polledHaveLoops_start st _ (NamePreserving projectId _)).
Qed.

Lemma step_polledHaveLoops st e :
  polledHaveLoops st -> polledHaveLoops (step st e).
Proof.
  intros Hinv.
  destruct e as [projectId | projectId | i response now
                | projectId response now | projectId response now
                | projectId modification_id mode now | projectId | now];
    cbn [step].
  - by apply pollProjectStatus_polledHaveLoops.
  - by apply pollProjectStatus_polledHaveLoops.
  - by apply pollFires_polledHaveLoops.
  - destruct response; [| by apply (polledHaveLoops_same st)].
    apply (polledHaveLoops_same
             (updateProjectSafely st projectId (stoppedFields now) now)).
    + reflexivity.
    + cbn. by intros x [Hx _]%elem_of_difference.
    + apply (polledHaveLoops_same st); [| | assumption].
      * apply updateProjectSafely_frame.
      * by rewrite (proj2 (updateProjectSafely_frame _ _ _ _)).
  - rewrite handleRegenerateProject_current. destruct response.
    + apply (polledHaveLoops_same
               (pollProjectStatus
                  (updateProjectSafely (setNotice None st) projectId
                     regeneratedFields now) projectId));
        [reflexivity | reflexivity |].
      apply pollProjectStatus_polledHaveLoops.
      apply (polledHaveLoops_same (setNotice None st)).
      * apply updateProjectSafely_frame.
      * by rewrite (proj2 (updateProjectSafely_frame _ _ _ _)).
      * by apply (polledHaveLoops_same st).
    + by apply (polledHaveLoops_same st).
  - unfold handleModifyProject.
    match goal with
    | |- polledHaveLoops (setNotice _ ?st1) =>
        apply (polledHaveLoops_same st1); [reflexivity | reflexivity |]
    end.
    apply pollProjectStatus_polledHaveLoops.
    by apply (polledHaveLoops_same st).
  - unfold handleDeleteProject.
    apply (polledHaveLoops_same st); [| | assumption].
    + destruct (selectedProject _) as [p |]; [destruct (hasId _ p) |];
        reflexivity.
    + destruct (selectedProject _) as [p |]; [destruct (hasId _ p) |];
        reflexivity.
  - unfold handleForceCleanup.
    destruct (forceCleanup (store st) now).
    by apply (polledHaveLoops_same st).
Qed.

Lemma pollProjectStatusFrom_polledHaveLoops seen st projectId :
  polledHaveLoops st ->
  polledHaveLoops (pollProjectStatusFrom seen st projectId)
  /\ polledHaveLoops
       (pollProjectStatusWithNamePreservationFrom seen st projectId).
Proof.
  intros Hinv.
  unfold pollProjectStatusFrom, pollProjectStatusWithNamePreservationFrom.
  case_bool_decide as Hin; [by split |].
  split.
  - by apply (polledHaveLoops_start st _ (Plain projectId)).
  - by eapply (polledHaveLoops_start st _ (NamePreserving projectId _)).
Qed.

Lemma handleRegenerateProject_polledHaveLoops seen st projectId response now :
  polledHaveLoops st ->
  polledHaveLoops (handleRegenerateProject seen st projectId response now).
Proof.
  intros Hinv. unfold handleRegenerateProject.
  destruct response; [| by apply (polledHaveLoops_same st)].
  apply (polledHaveLoops_same
           (pollProjectStatusFrom seen
              (updateProjectSafely (setNotice None st) projectId
                 regeneratedFields now) projectId));
    [reflexivity | reflexivity |].
  apply pollProjectStatusFrom_polledHaveLoops.
  apply (polledHaveLoops_same (setNotice None st)).
  - apply updateProjectSafely_frame.
  - by rewrite (proj2 (updateProjectSafely_frame _ _ _ _)).
  - by apply (polledHaveLoops_same st).
Qed.

(** X18.  Over every sequence of page events from the initial page
    (monitoring started, a poll response, stop, regenerate, modify, delete,
    cleanup), accepted stops included, also when a creation or a
    regeneration starts the monitor late, through a guard that reads the
    [polling] set of an earlier render, and whatever else happens to the
    project list in between: every project in [polling] has a live loop. *)
Theorem polled_have_loops s os : polledHaveLoops (runAll (initial s) os).
Proof.
  assert (Hrun : forall st,
            polledHaveLoops st -> polledHaveLoops (runAll st os)).
  { induction os as [| o os IH]; intros st Hinv; [assumption |].
    simpl. apply IH.
    destruct o as [e | seen projectId | seen projectId r now | hook];
      cbn [occur].
    - by apply step_polledHaveLoops.
    - by apply pollProjectStatusFrom_polledHaveLoops.
    - by apply handleRegenerateProject_polledHaveLoops.
    - by apply (polledHaveLoops_same st). }
  apply Hrun. intros projectId Hin. cbn in Hin.
  by apply not_elem_of_empty in Hin.
Qed.

(** X19.  On a page where no stop request was accepted, no project has more
    than one live polling loop, however often monitoring is started for it. *)
Theorem no_stop_one_loop s es projectId :
  Forall (fun e => ~ acceptedStop e) es ->
  (length (loopsOf projectId (run (initial s) es)) <= 1)%nat.
Proof.
  intros Hes. apply oneLoopEach_loopsOf, run_oneLoopEach; [assumption |].
  split; [constructor |]. intros l Hl. by apply elem_of_nil in Hl.
Qed.

(** X20.  Starting the monitoring of a project a second time, by either of the
    two functions, changes nothing. *)
Theorem start_polling_twice st projectId :
  pollProjectStatus (pollProjectStatus st projectId) projectId
  = pollProjectStatus st projectId
  /\ pollProjectStatusWithNamePreservation
       (pollProjectStatus st projectId) projectId
     = pollProjectStatus st projectId
  /\ pollProjectStatus
       (pollProjectStatusWithNamePreservation st projectId) projectId
     = pollProjectStatusWithNamePreservation st projectId
  /\ pollProjectStatusWithNamePreservation
       (pollProjectStatusWithNamePreservation st projectId) projectId
     = pollProjectStatusWithNamePreservation st projectId.
Proof.
  assert (Hplain : projectId ∈ polling (pollProjectStatus st projectId)).
  { unfold pollProjectStatus, pollProjectStatusFrom.
    case_bool_decide; [assumption |].
    cbn. apply elem_of_union. left. by apply elem_of_singleton. }
  assert (Hnamed :
    projectId ∈ polling (pollProjectStatusWithNamePreservation st projectId)).
  { unfold pollProjectStatusWithNamePreservation,
      pollProjectStatusWithNamePreservationFrom.
    case_bool_decide; [assumption |].
    cbn. apply elem_of_union. left. by apply elem_of_singleton. }
  split_and!; by apply pollProjectStatus_guard.
Qed.

(** X21.  After an accepted regeneration request for a project present in a
    store of at most 100 projects whose write is accepted, on a page where
    every polled project has a live loop: the project stored under the id
    is one for which the panel offers the stop control and not retry.  If
    the project was not polled when the request was made, or is still
    polled when the reply comes, it is in [polling] with a live loop
    afterwards.  If it was polled when the request was made the restart is
    skipped, [polling] and the loops staying as they are: a project whose
    loop has ended in between is left without a monitor. *)
Theorem regenerate_resumes_monitoring seen st projectId response now e :
  getProject (store st) projectId = Some e ->
  savesNormally (store st)
    (updatedProjects (store st) (JStr projectId)
       (safeUpdate e regeneratedFields) now) ->
  (length (projects (store st)) <= MAX_PROJECTS / 2)%nat ->
  polledHaveLoops st ->
  let st' :=
    handleRegenerateProject seen st projectId (Resolved response) now in
  (exists e',
      getProject (store st') projectId = Some e'
      /\ stopControlRendered true e' = true
      /\ retryOffered e' = false)
  /\ notice st' = Some RegenerationStarted
  /\ ((projectId ∈ seen -> projectId ∈ polling st) ->
      projectId ∈ polling st'
      /\ exists l, l ∈ loops st' /\ loopProject l = projectId)
  /\ (projectId ∈ seen ->
      polling st' = polling st /\ loops st' = loops st).
Proof.
  intros He Hsave Hlen Hinv st'.
  assert (Hpolled : polledHaveLoops st')
    by (by apply handleRegenerateProject_polledHaveLoops).
  split_and!; [| reflexivity | |].
  - destruct (status_after_safe_update (setNotice None st) projectId
                regeneratedFields now e (JStr "processing")
                He Hsave Hlen eq_refl eq_refl)
      as (e' & He' & Hstatus).
    exists e'. split.
    + subst st'. unfold handleRegenerateProject.
      cbn [store setNotice]. by rewrite store_pollProjectStatusFrom.
    + unfold stopControlRendered, retryOffered, isGenerating.
      rewrite Hstatus. by split.
  - intros Hstill.
    assert (Hin : projectId ∈ polling st').
    { subst st'. unfold handleRegenerateProject, pollProjectStatusFrom.
      case_bool_decide as Hseen.
      - cbn. rewrite (proj2 (updateProjectSafely_frame _ _ _ _)).
        by apply Hstill.
      - cbn. apply elem_of_union. left. by apply elem_of_singleton. }
    split; [exact Hin | by apply Hpolled].
  - intros Hseen. subst st'.
    unfold handleRegenerateProject, pollProjectStatusFrom.
    rewrite bool_decide_eq_true_2 by exact Hseen. cbn [polling loops setNotice].
    destruct (updateProjectSafely_frame (setNotice None st) projectId
                regeneratedFields now) as [Hloops Hpolling].
    by split.
Qed.

(** X22.  Deleting a project whose removal is saved: the id is gone from the
    list and from the active set and is no longer the selected project, while
    [polling] and the live loops stay as they were, so a loop of the deleted
    project keeps polling. *)
Theorem handleDeleteProject_effect st projectId :
  savesNormally (store st) (withoutProject (store st) projectId) ->
  let st' := handleDeleteProject st projectId in
  getProject (store st') projectId = None
  /\ (projectId ∉ activeProjects st')
  /\ (forall p, selectedProject st' = Some p ->
        hasId (JStr projectId) p = false)
  /\ polling st' = polling st
  /\ loops st' = loops st
  /\ notice st' = Some ProjectRemoved.
Proof.
  intros Hsave st'. subst st'. unfold handleDeleteProject.
  assert (Hnone : getProject (removeProject (store st) projectId) projectId
                  = None).
  { change (removeProject (store st) projectId)
      with (saveProjects (store st) (withoutProject (store st) projectId)).1.
    rewrite (saveProjects_normal _ _ Hsave). cbn [fst].
    apply getProject_None. intros p Hp. cbn in Hp.
    apply keptProjects_elem in Hp. unfold withoutProject in Hp.
    apply list_elem_of_In, filter_In in Hp as [_ Hp].
    by apply negb_true_iff in Hp. }
  cbn [selectedProject withStore].
  destruct (selectedProject st) as [p |] eqn:Hsel;
    [destruct (hasId (JStr projectId) p) eqn:Hid |];
    cbn; rewrite ?Hsel; split_and!; try done;
    try (intros [_ Hne]%elem_of_difference; apply Hne;
         by apply elem_of_singleton).
  intros q [= <-]. exact Hid.
Qed.

(** X24.  After a modification is started for a project present in a store
    of at most 100 projects whose write is accepted, on a page where every
    polled project has a live loop: the stored project has status
    [processing], iteration 0 and the given modification id and mode, keeps
    its name, and the project is in [polling] with a live loop. *)
Theorem modify_restarts_monitoring st projectId modification_id mode now e :
  getProject (store st) projectId = Some e ->
  savesNormally (store st)
    (updatedProjects (store st) (JStr projectId)
       {[ "status" := JStr "processing";
          "modification_id" := modification_id;
          "current_iteration" := JNum 0;
          "modification_mode" := mode ]} now) ->
  (length (projects (store st)) <= MAX_PROJECTS / 2)%nat ->
  polledHaveLoops st ->
  let st' := handleModifyProject st projectId modification_id mode now in
  (exists e' p,
      getProject (store st') projectId = Some e'
      /\ p ∈ projects (store st) /\ hasId (JStr projectId) p = true
      /\ prop "status" e' = JStr "processing"
      /\ prop "current_iteration" e' = JNum 0
      /\ prop "modification_id" e' = modification_id
      /\ prop "modification_mode" e' = mode
      /\ prop "project_name" e' = prop "project_name" p)
  /\ projectId ∈ polling st'
  /\ (exists l, l ∈ loops st' /\ loopProject l = projectId)
  /\ notice st' = Some ModificationStarted.
Proof.
  intros He Hsave Hlen Hinv st'.
  assert (Hpolled : polledHaveLoops st').
  { apply (step_polledHaveLoops st
             (Modify projectId modification_id mode now) Hinv). }
  assert (Hin : projectId ∈ polling st').
  { subst st'. unfold handleModifyProject, pollProjectStatus,
      pollProjectStatusFrom.
    case_bool_decide; [assumption |].
    cbn. apply elem_of_union. left. by apply elem_of_singleton. }
  split_and!; [| exact Hin | by apply Hpolled | reflexivity].
  destruct (getProject_Some _ _ _ He) as [Hine Hhas].
  destruct (present_after_saved_update _ _ _ _ _ Hsave Hlen eq_refl Hine Hhas)
    as [e' He'].
  exists e'.
  destruct (found_after_saved_update _ _ _ _ _ Hsave He')
    as (p & Hp & Hpid & ->).
  exists p. split.
  - subst st'. unfold handleModifyProject. cbn [store setNotice].
    rewrite store_pollProjectStatus. exact He'.
  - rewrite !mergeUpdate_prop by discriminate. by split_and!.
Qed.

End PanelAndPage.

(** ** Project ids stay unique *)

Section UniqueIds.
Context `{DateImpl}.
Import RobustStorage.

Lemma sublist_List_filter {A} (f : A -> bool) (l : list A) :
  List.filter f l `sublist_of` l.
Proof.
  induction l as [| x l IH]; simpl; [constructor |].
  destruct (f x); by constructor.
Qed.

Lemma unique_ids_sublist (l k : list Project) :
  l `sublist_of` k ->
  NoDup (prop "project_id" <$> k) -> NoDup (prop "project_id" <$> l).
Proof.
  intros Hsub Hnd. apply (sublist_NoDup _ _ Hnd). by apply fmap_sublist.
Qed.

Lemma saveProjects_unique_ids st l :
  NoDup (prop "project_id" <$> projects st) ->
  NoDup (prop "project_id" <$> l) ->
  NoDup (prop "project_id" <$> projects (saveProjects st l).1).
Proof.
  intros Hst Hl.
  destruct (saveProjects_cases st l) as [-> | [[_ ->] | (_ & _ & ->)]];
    cbn [fst]; [assumption | |].
  - cbn. destruct (keptProjects_prefix l) as (n & _ & ->).
    apply (unique_ids_sublist _ (sortNewestFirst l)); [apply sublist_take |].
    by rewrite sortNewestFirst_Permutation.
  - cbn. by apply (unique_ids_sublist _ l); [apply sublist_take |].
Qed.

Lemma updatedProjects_ids st project now projectId :
  prop "project_id" project = JStr projectId ->
  prop "project_id" <$> updatedProjects st (JStr projectId) project now
  = prop "project_id" <$> projects st.
Proof.
  intros Hid. unfold updatedProjects.
  induction (projects st) as [| p l IH]; [reflexivity |].
  cbn [map]. rewrite !fmap_cons, IH. f_equal.
  destruct (hasId (JStr projectId) p) eqn:Hp; [| reflexivity].
  apply strictEq_JStr in Hp. rewrite Hp, mergeUpdate_prop by discriminate.
  unfold prop in Hid.
  destruct (project !! "project_id") as [v |]; simpl in Hid; by subst.
Qed.

(** X23.  When the project ids of the list are pairwise different they are
    still so after [addProject] of a project with a string id, after
    [removeProject] and after [forceCleanup], whatever storage does with the
    write: an id that is already there is updated, never added again. *)
Theorem project_ids_stay_unique st :
  NoDup (prop "project_id" <$> projects st) ->
  (forall project now projectId,
     prop "project_id" project = JStr projectId ->
     NoDup (prop "project_id" <$> projects (addProject st project now).1))
  /\ (forall projectId,
        NoDup (prop "project_id" <$> projects (removeProject st projectId)))
  /\ (forall now,
        NoDup (prop "project_id" <$> projects (forceCleanup st now).1)).
Proof.
  intros Hnd. split_and!.
  - intros project now projectId Hid.
    destruct (hasRequiredFields project) eqn:Hok;
      [| by rewrite addProject_rejects].
    destruct (List.find (hasId (prop "project_id" project)) (projects st))
      as [e |] eqn:Hfind.
    + rewrite (addProject_accepts _ _ _ Hok), Hfind. cbn [fst].
      unfold updateProjectById. apply saveProjects_unique_ids; [assumption |].
      rewrite Hid. by rewrite updatedProjects_ids.
    + destruct (addProject_projects _ _ now Hok Hfind) as [-> _].
      apply saveProjects_unique_ids; [assumption |].
      rewrite fmap_cons. apply NoDup_cons. split; [| assumption].
      intros (p & Hp & Hin)%list_elem_of_fmap.
      apply list_elem_of_In in Hin.
      pose proof (find_none _ _ Hfind p Hin) as Hno.
      assert (Hyes : hasId (prop "project_id" project) p = true);
        [| congruence].
      unfold hasId. rewrite Hid. apply strictEq_JStr.
      rewrite <- Hp. unfold prop at 1.
      rewrite normalizedProject_prop by discriminate. exact Hid.
  - intros projectId. unfold removeProject.
    apply saveProjects_unique_ids; [assumption |].
    by apply (unique_ids_sublist _ (projects st));
      [apply sublist_List_filter |].
  - intros now. unfold forceCleanup. cbn [fst].
    apply saveProjects_unique_ids; [assumption |].
    apply (unique_ids_sublist _ (projects st)); [| assumption].
    unfold recentProjects. etrans; [apply sublist_take |].
    apply sublist_List_filter.
Qed.

End UniqueIds.

(** ** Cleanup of the stored list *)

Section Cleanup.
Context `{DateImpl}.
Import RobustStorage.

Lemma length_append (s1 s2 : string) :
  String.length (s1 +:+ s2) = (String.length s1 + String.length s2)%nat.
Proof. induction s1 as [| c s1 IH]; simpl; [reflexivity | by rewrite IH]. Qed.

Lemma length_joined (parts : list string) : forall p,
  String.length (fold_left (fun acc q => acc +:+ "," +:+ q) parts p)
  = (String.length p + sum_list_with (fun q => S (String.length q)) parts)%nat.
Proof.
  induction parts as [| q parts IH]; intros p; simpl; [lia |].
  rewrite IH, !length_append. simpl. lia.
Qed.

Lemma sum_list_with_map {A B} (f : A -> B) (g : B -> nat) l :
  sum_list_with g (map f l) = sum_list_with (fun x => g (f x)) l.
Proof. induction l as [| x l IH]; simpl; [reflexivity | by rewrite IH]. Qed.

(** The length of the JSON text of an array: the brackets, the elements
    and the commas between them. *)
Lemma length_stringify_array (l : list JValue) :
  String.length (stringify (JArr l))
  = match l with
    | [] => 2%nat
    | _ => S (sum_list_with (fun v => S (String.length (stringify v))) l)
    end.
Proof.
  change (stringify (JArr l))
    with ("[" +:+ joinComma (map stringify l) +:+ "]").
  rewrite !length_append. destruct l as [| v l]; [reflexivity |].
  cbn [map joinComma]. rewrite length_joined, sum_list_with_map. simpl. lia.
Qed.

Lemma sum_list_with_submseteq {A} (f : A -> nat) l k :
  l ⊆+ k -> (sum_list_with f l <= sum_list_with f k)%nat.
Proof. induction 1; simpl; lia. Qed.

(** The text of a part of an array is no longer than the text of the
    array, in whichever order the part is written. *)
Lemma length_stringify_submseteq (l k : list JValue) :
  l ⊆+ k ->
  (String.length (stringify (JArr l)) <= String.length (stringify (JArr k)))%nat.
Proof.
  intros Hsub. rewrite !length_stringify_array.
  pose proof (sum_list_with_submseteq
                (fun v => S (String.length (stringify v))) _ _ Hsub) as Hsum.
  destruct l as [| v l], k as [| w k]; simpl in *; lia.
Qed.

Lemma usage_insert k v (m : gmap string JValue) :
  LocalStorage.usage (<[k := v]> m)
  = LocalStorage.textLength k + LocalStorage.textLength (stringify v)
    + LocalStorage.usage (delete k m).
Proof.
  rewrite <- insert_delete_eq. unfold LocalStorage.usage.
  rewrite map_fold_insert_L; [reflexivity | intros; lia |].
  apply lookup_delete_eq.
Qed.

Lemma usage_lookup k v (m : gmap string JValue) :
  m !! k = Some v ->
  LocalStorage.usage m
  = LocalStorage.textLength k + LocalStorage.textLength (stringify v)
    + LocalStorage.usage (delete k m).
Proof.
  intros Hk. unfold LocalStorage.usage.
  rewrite (map_fold_delete_L _ _ k v m); [reflexivity | intros; lia | exact Hk].
Qed.

Lemma keptProjects_submseteq l : keptProjects l ⊆+ l.
Proof.
  destruct (keptProjects_prefix l) as (n & _ & ->).
  etrans; [apply submseteq_take |].
  apply Permutation_submseteq, sortNewestFirst_Permutation.
Qed.

(** Where the list is the stored one, any part of it can be saved: its
    text is no longer than the one it replaces. *)
Lemma holdsList_saves st l :
  holdsList st -> l ⊆+ projects st -> savesNormally st l.
Proof.
  intros (Havail & Hquota & Hstored) Hsub. split; [exact Havail |].
  unfold LocalStorage.fits, LocalStorage.getItem in *.
  rewrite usage_insert. rewrite (usage_lookup _ _ _ Hstored) in Hquota.
  assert (Hlen : LocalStorage.textLength
                   (stringify (roundTrip (projectsJson (keptProjects l))))
                 <= LocalStorage.textLength
                      (stringify (roundTrip (projectsJson (projects st)))));
    [| lia].
  rewrite !roundTrip_projectsJson. unfold LocalStorage.textLength, projectsJson.
  apply inj_le, length_stringify_submseteq.
  apply fmap_submseteq, fmap_submseteq.
  etrans; [apply keptProjects_submseteq | exact Hsub].
Qed.

Lemma recentProjects_submseteq st now : recentProjects st now ⊆+ projects st.
Proof.
  unfold recentProjects. etrans; [apply submseteq_take |].
  apply sublist_submseteq, sublist_List_filter.
Qed.

(** C7.  Where the list is the stored one, cleanup retains exactly the
    projects created after the cutoff, thirty days back on the local
    calendar, the first hundred of them in list order; it reports as
    removed the number of projects before minus the number retained, and
    the retained list is again the stored one.  The cutoff is 30 days of 24
    hours before the cleanup when the local clock has the same offset at
    both ends. *)
Theorem forceCleanup_retains_recent st now :
  holdsList st ->
  let st' := (forceCleanup st now).1 in
  let result := (forceCleanup st now).2 in
  projects st' ≡ₚ take 100 (List.filter (isRecent now) (projects st))
  /\ (forall p, p ∈ projects st' ->
        p ∈ projects st
        /\ exists t, createdAt p = Some t /\ cutoffDate now < t)
  /\ ((length (List.filter (isRecent now) (projects st)) <= 100)%nat ->
      forall p t, p ∈ projects st -> createdAt p = Some t ->
        cutoffDate now < t -> p ∈ projects st')
  /\ (length (projects st') <= 100)%nat
  /\ removed result
     = Z.of_nat (length (projects st)) - Z.of_nat (length (projects st'))
  /\ remaining result = Z.of_nat (length (projects st'))
  /\ holdsList st'
  /\ (localTZA (now + localTZA now true - 30 * 86400000) false
      = localTZA now true ->
      cutoffDate now = now - 30 * 86400000).
Proof.
  intros Hheld.
  pose proof (holdsList_saves _ _ Hheld (recentProjects_submseteq st now))
    as Hsave.
  destruct (forceCleanup_saved st now Hsave)
    as (Hperm & Hrecent & _ & Hstored & Hremoved & Hremaining).
  cbv zeta. split_and!; try assumption.
  - intros Hfew p t Hp Ht Hcut. rewrite Hperm, take_ge by exact Hfew.
    apply list_elem_of_In, filter_In. split; [by apply list_elem_of_In |].
    unfold isRecent. rewrite Ht. by apply Z.ltb_lt.
  - rewrite Hperm, length_take. lia.
  - unfold forceCleanup in *. cbn [fst] in *.
    rewrite (saveProjects_normal _ _ Hsave) in *.
    destruct Hheld as (Havail & _ & _), Hsave as [_ Hfit].
    split_and!; [exact Havail | exact Hfit | exact Hstored].
  - unfold cutoffDate. cbv zeta. intros ->. lia.
Qed.

End Cleanup.

(** ** Instances of the properties above on the example data *)

Section MoreExamples.
Import RobustStorage HomePage Examples.
#[local] Existing Instance IsoDate.isoDate.

Lemma saveProjects_failure_changes_nothing_witness :
  (saveProjects (onStore [shop; archive] full) [shop]).2 = false
  /\ (saveProjects (onStore [shop; archive] full) [shop]).1
     = onStore [shop; archive] full.
Proof.
  assert (Hfail : (saveProjects (onStore [shop; archive] full) [shop]).2
                  = false) by (vm_compute; reflexivity).
  split; [exact Hfail |].
  apply (saveProjects_failure_changes_nothing _ _ Hfail).
Defined.

Lemma saveProjects_other_keys_witness :
  ACTIVE_PROJECTS_KEY <> STORAGE_KEY
  /\ LocalStorage.getItem ACTIVE_PROJECTS_KEY
       (localStorage (saveProjects tracking [forum]).1)
     = Some (JArr [JStr "p2"; JStr "p7"]).
Proof.
  assert (Hne : ACTIVE_PROJECTS_KEY <> STORAGE_KEY) by discriminate.
  split; [exact Hne |].
  rewrite (proj1 (saveProjects_other_keys tracking [forum] _ Hne)).
  reflexivity.
Defined.

Lemma saveProjects_again_witness :
  savesNormally (onStore [] roomy) [shop; blog]
  /\ saveProjects (saveProjects (onStore [] roomy) [shop; blog]).1
       (projects (saveProjects (onStore [] roomy) [shop; blog]).1)
     = ((saveProjects (onStore [] roomy) [shop; blog]).1, true).
Proof.
  assert (Hsave : savesNormally (onStore [] roomy) [shop; blog]).
  { split; [reflexivity |]. unfold LocalStorage.fits. vm_compute. discriminate. }
  split; [exact Hsave |]. apply (saveProjects_again _ _ Hsave).
Defined.

Lemma removeProject_removes_witness :
  savesNormally (onStore [blog; shop] roomy)
    (withoutProject (onStore [blog; shop] roomy) "p1")
  /\ getProject (removeProject (onStore [blog; shop] roomy) "p1") "p1" = None.
Proof.
  assert (Hsave : savesNormally (onStore [blog; shop] roomy)
                    (withoutProject (onStore [blog; shop] roomy) "p1")).
  { split; [reflexivity |]. unfold LocalStorage.fits. vm_compute. discriminate. }
  split; [exact Hsave |].
  refine (proj1 (removeProject_removes (onStore [blog; shop] roomy) "p1"
                   Hsave _)).
  vm_compute. lia.
Defined.

Lemma addProject_keeps_required_fields_witness :
  Forall (fun p => hasRequiredFields p = true)
    (projects (onStore [blog; shop] roomy))
  /\ Forall (fun p => hasRequiredFields p = true)
       (projects (addProject (onStore [blog; shop] roomy) forum noon).1).
Proof.
  assert (Hall : Forall (fun p => hasRequiredFields p = true)
                   (projects (onStore [blog; shop] roomy)))
    by (repeat constructor).
  split; [exact Hall |].
  apply (addProject_keeps_required_fields _ forum noon Hall).
Defined.

Lemma addProject_adds_new_witness :
  getProject (onStore [blog; shop] roomy) "p3" = None
  /\ (addProject (onStore [blog; shop] roomy) forum noon).2 = Some true
  /\ getProject (addProject (onStore [blog; shop] roomy) forum noon).1 "p3"
     = Some (normalizedProject forum noon).
Proof.
  split; [reflexivity |].
  refine ((fun Hall => conj (proj1 Hall) (proj1 (proj2 Hall)))
            (addProject_adds_new (onStore [blog; shop] roomy) forum noon "p3"
               _ _ _ _ _)).
  - reflexivity.
  - reflexivity.
  - reflexivity.
  - split; [reflexivity |]. unfold LocalStorage.fits. vm_compute. discriminate.
  - vm_compute. lia.
Defined.

Lemma import_of_export_adds_nothing_witness :
  Forall (fun p => exists s, prop "project_id" p = JStr s)
    (projects (onStore [blog; shop] roomy))
  /\ count (importProjects (onStore [blog; shop] roomy)
              (Some (exportedProjects (onStore [blog; shop] roomy)))).2
     = Some 0%nat.
Proof.
  assert (Hids : Forall (fun p => exists s, prop "project_id" p = JStr s)
                   (projects (onStore [blog; shop] roomy))).
  { repeat constructor; eexists; reflexivity. }
  split; [exact Hids |].
  by rewrite (import_of_export_adds_nothing _ Hids).
Defined.

Lemma save_then_load_witness :
  savesNormally (onStore [] roomy) [shop; blog]
  /\ length (projects
               (loadProjects (saveProjects (onStore [] roomy) [shop; blog]).1))
     = 2%nat.
Proof.
  assert (Hsave : savesNormally (onStore [] roomy) [shop; blog]).
  { split; [reflexivity |]. unfold LocalStorage.fits. vm_compute. discriminate. }
  split; [exact Hsave |].
  rewrite (save_then_load (onStore [] roomy) [shop; blog] Hsave).
  - reflexivity.
  - repeat constructor.
  - vm_compute. reflexivity.
Defined.

Lemma untrackActiveProject_removes_witness :
  RobustStorage.untrackActiveProject tracking "p2"
    = ((RobustStorage.untrackActiveProject tracking "p2").1, true)
  /\ LocalStorage.getItem ACTIVE_PROJECTS_KEY
       (localStorage (RobustStorage.untrackActiveProject tracking "p2").1)
     = Some (JArr [JStr "p7"]).
Proof.
  assert (Hdone : RobustStorage.untrackActiveProject tracking "p2"
                  = ((RobustStorage.untrackActiveProject tracking "p2").1, true))
    by reflexivity.
  split; [exact Hdone |].
  exact (proj1 (untrackActiveProject_removes tracking "p2" ["p2"; "p7"] _
                  eq_refl Hdone)).
Defined.

Lemma track_then_untrack_witness :
  RobustStorage.trackActiveProject tracking "p9"
    = ((RobustStorage.trackActiveProject tracking "p9").1, true)
  /\ (RobustStorage.untrackActiveProject (RobustStorage.trackActiveProject tracking "p9").1 "p9").1
     = tracking.
Proof.
  assert (Htrack : RobustStorage.trackActiveProject tracking "p9"
                   = ((RobustStorage.trackActiveProject tracking "p9").1, true))
    by reflexivity.
  split; [exact Htrack |].
  refine (track_then_untrack tracking "p9" ["p2"; "p7"] _ _
            eq_refl _ Htrack _).
  - intros Hin. by repeat (apply elem_of_cons in Hin as [Hin | Hin];
                            [discriminate |]); apply elem_of_nil in Hin.
  - reflexivity.
Defined.

Lemma trackActiveProject_idempotent_witness :
  RobustStorage.trackActiveProject tracking "p9"
    = ((RobustStorage.trackActiveProject tracking "p9").1, true)
  /\ RobustStorage.trackActiveProject (RobustStorage.trackActiveProject tracking "p9").1 "p9"
     = ((RobustStorage.trackActiveProject tracking "p9").1, true).
Proof.
  assert (Htrack : RobustStorage.trackActiveProject tracking "p9"
                   = ((RobustStorage.trackActiveProject tracking "p9").1, true))
    by reflexivity.
  split; [exact Htrack |].
  apply (trackActiveProject_idempotent tracking "p9" _ Htrack).
Defined.

Lemma no_stop_one_loop_witness :
  Forall (fun e => ~ acceptedStop e)
    [StartPolling "p1"; Regenerate "p1" accepted noon; StartPollingNamed "p1"]
  /\ (length
        (loopsOf "p1"
           (run (initial (onStore [blog; shop] roomy))
              [StartPolling "p1"; Regenerate "p1" accepted noon;
               StartPollingNamed "p1"])) <= 1)%nat.
Proof.
  assert (Hes : Forall (fun e => ~ acceptedStop e)
                  [StartPolling "p1"; Regenerate "p1" accepted noon;
                   StartPollingNamed "p1"])
    by (repeat constructor; intros []).
  split; [exact Hes |].
  apply (no_stop_one_loop (onStore [blog; shop] roomy) _ "p1" Hes).
Defined.

Lemma stop_offers_retry_witness :
  getProject (store page) "p1" = Some shop
  /\ exists e',
       getProject (store (handleStopGeneration page "p1" accepted noon)) "p1"
         = Some e'
       /\ ProjectDetails.stopControlRendered true e' = false
       /\ ProjectDetails.retryOffered e' = true
       /\ ProjectDetails.downloadOffered e' = false
       /\ ProjectDetails.modifyOffered true e' = true.
Proof.
  split; [reflexivity |].
  refine (stop_offers_retry page "p1" (JObj {[ "success" := JBool true ]})
            noon shop true _ _ _).
  - reflexivity.
  - split; [reflexivity |]. unfold LocalStorage.fits. vm_compute. discriminate.
  - vm_compute. lia.
Defined.

Lemma regenerate_resumes_monitoring_witness :
  getProject (store page) "p1" = Some shop
  /\ notice (handleRegenerateProject (polling page) page "p1" accepted noon)
     = Some RegenerationStarted.
Proof.
  split; [reflexivity |].
  refine (proj1 (proj2
    (regenerate_resumes_monitoring (polling page) page "p1"
       (JObj {[ "success" := JBool true ]}) noon shop _ _ _ _))).
  - reflexivity.
  - split; [reflexivity |]. unfold LocalStorage.fits. vm_compute. discriminate.
  - vm_compute. lia.
  - intros projectId Hin. by apply not_elem_of_empty in Hin.
Defined.

Lemma handleDeleteProject_effect_witness :
  savesNormally (store page) (withoutProject (store page) "p1")
  /\ getProject (store (handleDeleteProject page "p1")) "p1" = None.
Proof.
  assert (Hsave : savesNormally (store page)
                    (withoutProject (store page) "p1")).
  { split; [reflexivity |]. unfold LocalStorage.fits. vm_compute. discriminate. }
  split; [exact Hsave |].
  exact (proj1 (handleDeleteProject_effect page "p1" Hsave)).
Defined.

Lemma project_ids_stay_unique_witness :
  NoDup (prop "project_id" <$> projects (onStore [blog; shop] roomy))
  /\ NoDup (prop "project_id"
              <$> projects (addProject (onStore [blog; shop] roomy)
                              (<["status" := JStr "completed"]> shop) noon).1).
Proof.
  assert (Hnd : NoDup (prop "project_id"
                         <$> projects (onStore [blog; shop] roomy))).
  { apply (NoDup_cons_2 (JStr "p2")); [| apply NoDup_singleton].
    intros Hin. apply list_elem_of_singleton in Hin. discriminate. }
  split; [exact Hnd |].
  apply (proj1 (project_ids_stay_unique _ Hnd) _ noon "p1"). reflexivity.
Defined.

Lemma modify_restarts_monitoring_witness :
  getProject (store page) "p2" = Some blog
  /\ notice (handleModifyProject page "p2" (JStr "m1") (JStr "incremental")
               noon)
     = Some ModificationStarted.
Proof.
  split; [reflexivity |].
  refine (proj2 (proj2 (proj2
    (modify_restarts_monitoring page "p2" (JStr "m1") (JStr "incremental")
       noon blog _ _ _ _)))).
  - reflexivity.
  - split; [reflexivity |]. unfold LocalStorage.fits. vm_compute. discriminate.
  - vm_compute. lia.
  - intros projectId Hin. by apply not_elem_of_empty in Hin.
Defined.

Lemma forceCleanup_retains_recent_witness :
  holdsList library
  /\ projects library = [blog; shop; archive]
  /\ projects (forceCleanup library noonMs).1
     ≡ₚ take 100 (List.filter (isRecent noonMs) (projects library))
  /\ projects (forceCleanup library noonMs).1 = [blog; shop]
  /\ removed (forceCleanup library noonMs).2 = 1.
Proof.
  assert (Hheld : holdsList library).
  { split_and!; [reflexivity | vm_compute; discriminate | reflexivity]. }
  split_and!; [exact Hheld | reflexivity | | reflexivity | reflexivity].
  apply (proj1 (forceCleanup_retains_recent library noonMs Hheld)).
Defined.

(** The monitor of the shop is running when regeneration is requested and
    ends on a failed status before the reply: the guard still sees the shop
    as polled, the restart is skipped, and the shop is stored as
    [processing] with no loop alive. *)
Lemma regenerate_blocked_by_stale_guard :
  let started := run page [StartPolling "p1"] in
  let ended :=
    pollFires started 0 (Resolved {[ "status" := JStr "failed" ]}) noon in
  let st' :=
    handleRegenerateProject (polling started) ended "p1" accepted noon in
  bool_decide ("p1" ∈ polling started) = true
  /\ bool_decide ("p1" ∈ polling ended) = false
  /\ loopsOf "p1" ended = []
  /\ bool_decide ("p1" ∈ polling st') = false
  /\ loopsOf "p1" st' = []
  /\ prop "status" <$> getProject (store st') "p1" = Some (JStr "processing").
Proof. vm_compute. repeat split; reflexivity. Qed.

End MoreExamples.
